(** * AudiobookDisc: the playback control loop of [audiotest2.py]

    A shallow embedding of the chapter index ([get_current_chapter],
    [get_next_chapter_time], [get_previous_chapter_time]), the player
    channel ([send_ipc_command], [handle_playback_controls]), the position
    store ([load_playback_position], [save_playback_position]) and the
    loop of [play_audiobook], followed by the properties of the
    specification that they satisfy or fail.

    Python floats are Rocq's primitive binary64 floats, so comparisons
    behave as in the program (including on NaN).  Effects are threaded
    through an explicit world: the debug log, the IPC paths, the position
    file and the curses window.  Exceptions are results of the monad. *)

From Stdlib Require Import ZArith List String Ascii Bool Floats Lia.
Import ListNotations.

(** ** Python values and exceptions *)

(** The subclasses of [Exception] that the modelled operations raise. *)
Inductive exn : Type :=
| FileNotFoundError
| PermissionError
| IsADirectoryError
| BrokenPipeError
| OSError (errno : Z)
| EOFError
| UnpicklingError
| ValueError
| OverflowError
| TypeError.

Definition is_FileNotFoundError (e : exn) : bool :=
  match e with FileNotFoundError => true | _ => false end.

(** An f-string is kept as its pieces: the literal parts and the holes.  The
    decimal rendering of a float ([str], [:.2f]) is not computed; a hole
    records the value rendered and the format used. *)
Inductive piece : Type :=
| Lit (s : string)
| FloatRepr (x : float)      (* {x} *)
| FloatFixed2 (x : float)    (* {x:.2f} *)
| IntRepr (n : Z)            (* {n} *)
| CharOf (code : Z)          (* the one-character string chr(code) *)
| ExnRepr (e : exn).         (* {e} *)

Definition text : Type := list piece.

Definition newline : string := String (ascii_of_nat 10) EmptyString.

(** The objects a position file can hold.  [save_playback_position] only
    writes floats; [PyStr] stands for any non-numeric object. *)
Inductive pyval : Type :=
| PyInt (n : Z)
| PyFloat (x : float)
| PyStr (s : string).

(** ** Data model *)

(** One entry of [chapter_info] as [get_metadata] builds it. *)
Record chapter : Type := Chapter {
  start_time : float;
  end_time : float;
  title : string
}.

(** The keymap of the source. *)
Definition PLAYBACK_CONTROLS : list (ascii * string) :=
  [("p"%char, "pause"); ("s"%char, "stop"); ("f"%char, "forward");
   ("b"%char, "backward"); ("n"%char, "next"); ("m"%char, "previous")]%string.

(** ** The world *)

Inductive level : Type := DEBUG | ERROR.

(** What is behind an IPC path: a receiver that has read the lines written
    so far, or a condition under which opening or writing raises [e]. *)
Inductive channel : Type :=
| Listening (received : list text)
| Failing (e : exn).

(** What [pickle.load] makes of the bytes of the position file: the object a
    complete [pickle.dump] wrote, or bytes on which it raises [e] (an empty
    or truncated file raises [EOFError]). *)
Inductive blob : Type :=
| Pickled (v : pyval)
| Garbled (e : exn).

Record world : Type := World {
  debug_log : list (level * text);           (* metadata_debug.log *)
  channels : string -> channel;              (* the IPC paths *)
  pkl_contents : option blob;                (* playback_position.pkl, None: no such file *)
  pkl_read_fault : option exn;               (* raised by open(..., 'rb'), if any *)
  pkl_write_fault : option exn;              (* raised by open(..., 'wb'), if any *)
  window : list (Z * Z * text);              (* stdscr since the last clear *)
  frames : list (list (Z * Z * text))        (* what each refresh showed *)
}.

Definition set_debug_log (l : list (level * text)) (w : world) : world :=
  World l (channels w) (pkl_contents w) (pkl_read_fault w) (pkl_write_fault w)
        (window w) (frames w).

Definition set_channel (path : string) (c : channel) (w : world) : world :=
  World (debug_log w)
        (fun p => if String.eqb p path then c else channels w p)
        (pkl_contents w) (pkl_read_fault w) (pkl_write_fault w)
        (window w) (frames w).

Definition set_pkl_contents (b : option blob) (w : world) : world :=
  World (debug_log w) (channels w) b (pkl_read_fault w) (pkl_write_fault w)
        (window w) (frames w).

Definition set_window (s : list (Z * Z * text)) (w : world) : world :=
  World (debug_log w) (channels w) (pkl_contents w) (pkl_read_fault w)
        (pkl_write_fault w) s (frames w).

Definition set_frames (f : list (list (Z * Z * text))) (w : world) : world :=
  World (debug_log w) (channels w) (pkl_contents w) (pkl_read_fault w)
        (pkl_write_fault w) (window w) f.

(** ** The monad: state and exceptions *)

Inductive outcome (A : Type) : Type :=
| Return (a : A)
| Raise (e : exn).

Arguments Return {A} a.
Arguments Raise {A} e.

Definition M (A : Type) : Type := world -> outcome A * world.

Definition ret {A} (a : A) : M A := fun w => (Return a, w).

Definition raise {A} (e : exn) : M A := fun w => (Raise e, w).

Definition bind {A B} (c : M A) (k : A -> M B) : M B :=
  fun w =>
    match c w with
    | (Return a, w') => k a w'
    | (Raise e, w') => (Raise e, w')
    end.

(** [try: c  except ...: h e]; a handler re-raises what its clause does not
    name. *)
Definition try_except {A} (c : M A) (h : exn -> M A) : M A :=
  fun w =>
    match c w with
    | (Return a, w') => (Return a, w')
    | (Raise e, w') => h e w'
    end.

Definition lift {A} (o : outcome A) : M A := fun w => (o, w).

Declare Scope py_scope.
Delimit Scope py_scope with py.
Notation "x <- c ;; k" := (bind c (fun x => k))
  (at level 61, c at next level, right associativity) : py_scope.
Notation "c ;; k" := (bind c (fun _ => k))
  (at level 61, right associativity) : py_scope.
Open Scope py_scope.

(** The value a computation returns from [w], if it returns. *)
Definition returns {A} (c : M A) (w : world) (a : A) : Prop :=
  fst (c w) = Return a.

Definition raises {A} (c : M A) (w : world) (e : exn) : Prop :=
  fst (c w) = Raise e.

Definition after {A} (c : M A) (w : world) : world := snd (c w).

(** ** Logging *)

Definition logging_debug (msg : text) : M unit :=
  fun w => (Return tt, set_debug_log (debug_log w ++ [(DEBUG, msg)]) w).

Definition logging_error (msg : text) : M unit :=
  fun w => (Return tt, set_debug_log (debug_log w ++ [(ERROR, msg)]) w).

(** ** ChapterIndex *)

(** The test of line 62: [current_time >= start_time and current_time < end_time]. *)
Definition within (current_time : float) (c : chapter) : bool :=
  (start_time c <=? current_time)%float && (current_time <? end_time c)%float.

(** The [for i, chapter in enumerate(chapters)] loop of [get_current_chapter];
    [current_chapter] is the local of that name. *)
Fixpoint scan_chapters (current_time : float) (i : nat) (chapters : list chapter)
         (current_chapter : string) : M string :=
  match chapters with
  | [] => ret current_chapter
  | c :: rest =>
      logging_debug [Lit "Checking chapter "; IntRepr (Z.of_nat i + 1); Lit ": ";
                     Lit (title c); Lit ", Start: "; FloatRepr (start_time c);
                     Lit ", End: "; FloatRepr (end_time c)] ;;
      if within current_time c then
        let current_chapter := title c in
        logging_debug [Lit "Found chapter: "; Lit current_chapter] ;;
        ret current_chapter                                 (* break *)
      else scan_chapters current_time (S i) rest current_chapter
  end.

Definition get_current_chapter (current_time : float) (chapters : list chapter)
  : M string :=
  logging_debug [Lit "Checking current time: "; FloatRepr current_time;
                 Lit " against chapters"] ;;
  scan_chapters current_time 0 chapters "Unknown Chapter".

Fixpoint get_next_chapter_time (current_time : float) (chapters : list chapter)
  : float :=
  match chapters with
  | [] => current_time
  | c :: rest =>
      if (current_time <? start_time c)%float then start_time c
      else get_next_chapter_time current_time rest
  end.

(** The loop of [get_previous_chapter_time] over an already reversed table;
    [current_time > start_time] is [start_time < current_time]. *)
Fixpoint scan_previous (current_time : float) (chapters : list chapter) : float :=
  match chapters with
  | [] => current_time
  | c :: rest =>
      if (start_time c <? current_time)%float then start_time c
      else scan_previous current_time rest
  end.

Definition get_previous_chapter_time (current_time : float)
           (chapters : list chapter) : float :=
  scan_previous current_time (rev chapters).

(** ** PlayerChannel *)

(** [with open(path, 'w') as ipc: ipc.write(data); ipc.flush()]: the line
    reaches the receiver, or the condition behind the path is raised and
    nothing is delivered. *)
Definition write_flush (path : string) (data : text) : M unit :=
  fun w =>
    match channels w path with
    | Listening received =>
        (Return tt, set_channel path (Listening (received ++ [data])) w)
    | Failing e => (Raise e, w)
    end.

Definition send_ipc_command (ipc_socket : string) (command : text) : M unit :=
  logging_debug (Lit "Sending command to mpv: " :: command) ;;
  try_except
    (write_flush ipc_socket (command ++ [Lit newline]))
    (fun e =>                                              (* except Exception as e *)
       logging_error [Lit "Error sending command to mpv: "; ExnRepr e]).

Definition ord (c : ascii) : Z := Z.of_nat (nat_of_ascii c).

(** The codes [chr] accepts: [range(0x110000)]. *)
Definition valid_code (i : Z) : bool := (0 <=? i)%Z && (i <? 1114112)%Z.

(** [chr(i)] raises [ValueError] outside that range. *)
Definition chr (i : Z) : M piece :=
  if valid_code i then ret (CharOf i) else raise ValueError.

Definition handle_playback_controls (ipc_socket : string) (key : Z)
           (current_time : float) (chapters : list chapter) : M unit :=
  pressed <- chr key ;;
  logging_debug [Lit "Handling key press: "; pressed] ;;
  if (key =? ord "p")%Z then
    send_ipc_command ipc_socket [Lit "cycle pause"]
  else if (key =? ord "s")%Z then
    send_ipc_command ipc_socket [Lit "stop"] ;;
    send_ipc_command ipc_socket [Lit "no-screenshot"]
  else if (key =? ord "f")%Z then
    send_ipc_command ipc_socket [Lit "seek 30 relative"]
  else if (key =? ord "b")%Z then
    send_ipc_command ipc_socket [Lit "seek -30 relative"]
  else if (key =? ord "n")%Z then
    let next_chapter_time := get_next_chapter_time current_time chapters in
    logging_debug [Lit "Skipping to next chapter at time: ";
                   FloatRepr next_chapter_time] ;;
    send_ipc_command ipc_socket
      [Lit "seek "; FloatRepr next_chapter_time; Lit " absolute"]
  else if (key =? ord "m")%Z then
    let prev_chapter_time := get_previous_chapter_time current_time chapters in
    logging_debug [Lit "Skipping to previous chapter at time: ";
                   FloatRepr prev_chapter_time] ;;
    send_ipc_command ipc_socket
      [Lit "seek "; FloatRepr prev_chapter_time; Lit " absolute"]
  else ret tt.

(** ** PositionStore *)

(** [open('playback_position.pkl', 'rb')]. *)
Definition open_rb : M unit :=
  fun w =>
    match pkl_read_fault w with
    | Some e => (Raise e, w)
    | None =>
        match pkl_contents w with
        | None => (Raise FileNotFoundError, w)
        | Some _ => (Return tt, w)
        end
    end.

Definition pickle_load : M pyval :=
  fun w =>
    match pkl_contents w with
    | Some (Pickled v) => (Return v, w)
    | Some (Garbled e) => (Raise e, w)
    | None => (Raise EOFError, w)
    end.

(** [open('playback_position.pkl', 'wb')] creates or truncates the file. *)
Definition open_wb : M unit :=
  fun w =>
    match pkl_write_fault w with
    | Some e => (Raise e, w)
    | None => (Return tt, set_pkl_contents (Some (Garbled EOFError)) w)
    end.

Definition pickle_dump (obj : pyval) : M unit :=
  fun w => (Return tt, set_pkl_contents (Some (Pickled obj)) w).

Definition load_playback_position : M pyval :=
  try_except
    (open_rb ;; pickle_load)
    (fun e => if is_FileNotFoundError e then ret (PyInt 0) else raise e).

Definition save_playback_position (position : pyval) : M unit :=
  open_wb ;; pickle_dump position.

(** ** Presentation *)

Definition stdscr_clear : M unit :=
  fun w => (Return tt, set_window [] w).

Definition stdscr_addstr (y x : Z) (s : text) : M unit :=
  fun w => (Return tt, set_window (window w ++ [(y, x, s)]) w).

Definition stdscr_refresh : M unit :=
  fun w => (Return tt, set_frames (frames w ++ [window w]) w).

Definition controls_line : string :=
  "Controls: 'p' Pause/Resume | 's' Stop | 'f' Forward 30s | 'b' Backward 30s | 'n' Next Chapter | 'm' Previous Chapter".

Definition display_info (title author : string)
           (current_time time_left chapter_time : text)
           (current_chapter : string) : M unit :=
  stdscr_clear ;;
  stdscr_addstr 0 0 [Lit "Title: "; Lit title] ;;
  stdscr_addstr 1 0 [Lit "Author: "; Lit author] ;;
  stdscr_addstr 2 0 (Lit "Current Time: " :: current_time ++ Lit " / " :: chapter_time) ;;
  stdscr_addstr 3 0 (Lit "Time Left in Chapter: " :: time_left) ;;
  stdscr_addstr 4 0 [Lit "Current Chapter: "; Lit current_chapter] ;;
  stdscr_addstr 5 0 [Lit controls_line] ;;
  stdscr_refresh.

(** ** Arithmetic of the loop *)

(** [float(n)] for a Python int: rounded to nearest even, [OverflowError]
    when out of range. *)
Definition float_of_int (n : Z) : outcome float :=
  let x := SF2Prim (binary_normalize prec emax n 0 false) in
  if is_infinity x then Raise OverflowError else Return x.

(** [x + v] for a float [x] and the object [v] that [load_playback_position]
    returned. *)
Definition float_add (x : float) (v : pyval) : outcome float :=
  match v with
  | PyFloat y => Return (x + y)%float
  | PyInt n =>
      match float_of_int n with
      | Return y => Return (x + y)%float
      | Raise e => Raise e
      end
  | PyStr _ => Raise TypeError
  end.

(** [int(x)]: truncation toward zero; [ValueError] on NaN and
    [OverflowError] on an infinity. *)
Definition int_of_float (x : float) : outcome Z :=
  match Prim2SF x with
  | S754_zero _ => Return 0%Z
  | S754_finite s m e =>
      Return (cond_Zopp s (if (0 <=? e)%Z then Zpos m * 2 ^ e
                           else Zpos m / 2 ^ (- e)))%Z
  | S754_infinity _ => Raise OverflowError
  | S754_nan => Raise ValueError
  end.

Definition time_sleep (seconds : Z) : M unit := ret tt.

(** ** PlaybackSession *)

(** What the environment supplies to one iteration: the reading of
    [time.time()] and the key that [stdscr.getch()] returns. *)
Record event : Type := Event {
  ev_now : float;
  ev_key : Z
}.

(** The body of [while True] in [play_audiobook]. *)
Definition tick (title author : string) (chapters : list chapter)
           (chapter_time : float) (playback_position : pyval)
           (ipc_socket : string) (start_time : float) (ev : event) : M unit :=
  current_time <- lift (float_add (ev_now ev - start_time)%float playback_position) ;;
  let time_left := (chapter_time - current_time)%float in
  current_chapter <- get_current_chapter current_time chapters ;;
  display_info title author [FloatFixed2 current_time; Lit "s"]
               [FloatFixed2 time_left; Lit "s"] [FloatFixed2 chapter_time; Lit "s"]
               current_chapter ;;
  let key := ev_key ev in
  handle_playback_controls ipc_socket key current_time chapters ;;
  seconds <- lift (int_of_float current_time) ;;
  (if (seconds mod 5 =? 0)%Z
   then save_playback_position (PyFloat current_time)
   else ret tt) ;;
  time_sleep 1.

(** [while True: body] observed over the iterations for which the
    environment supplied events: an exception leaves the loop, and after
    the last event the loop is still running. *)
Fixpoint while_true (body : event -> M unit) (events : list event) : M unit :=
  match events with
  | [] => ret tt
  | ev :: rest => body ev ;; while_true body rest
  end.

(** [play_audiobook] from the point where the metadata provider has
    answered; [start_time] is the reading of [time.time()] before the loop.
    Spawning mpv is outside the model. *)
Definition play_audiobook (title author : string) (chapters : list chapter)
           (total_duration : float) (start_time : float)
           (events : list event) : M unit :=
  playback_position <- load_playback_position ;;
  let ipc_socket := "/tmp/mpv-socket"%string in
  let chapter_time := total_duration in
  while_true (tick title author chapters chapter_time playback_position
                   ipc_socket start_time) events.

(** ** Predicates used in the statements *)

(** The table is sorted ascending by [start_time]: every chapter starts no
    later than each chapter after it. *)
Fixpoint sorted_by_start (chapters : list chapter) : bool :=
  match chapters with
  | [] => true
  | c :: rest =>
      forallb (fun c' => (start_time c <=? start_time c')%float) rest
      && sorted_by_start rest
  end.

(** The key codes of the keymap. *)
Definition mapped_keys : list Z := map (fun kv => ord (fst kv)) PLAYBACK_CONTROLS.

(** What [send_ipc_command] writes for a command: [command + '\n']. *)
Definition line (command : text) : text := command ++ [Lit newline].

(** The world once a debug message has been logged. *)
Definition logged (msg : text) (w : world) : world :=
  set_debug_log (debug_log w ++ [(DEBUG, msg)]) w.

(** The world once [handle_playback_controls] has logged the key. *)
Definition pressed (key : ascii) (w : world) : world :=
  logged [Lit "Handling key press: "; CharOf (ord key)] w.

(** Two worlds with the same position file and the same screen: they may
    differ in what is behind the IPC paths and in the debug log. *)
Definition same_session (w1 w2 : world) : Prop :=
  pkl_contents w1 = pkl_contents w2
  /\ pkl_read_fault w1 = pkl_read_fault w2
  /\ pkl_write_fault w1 = pkl_write_fault w2
  /\ window w1 = window w2
  /\ frames w1 = frames w2.

(** A computation that returns and leaves the position file and the screen
    as they were. *)
Definition harmless (c : M unit) : Prop :=
  forall w, fst (c w) = Return tt /\ same_session w (snd (c w)).

(** A computation whose result and whose effect on the position file and
    the screen do not depend on the IPC paths or the log. *)
Definition respects {A} (c : M A) : Prop :=
  forall w1 w2,
    same_session w1 w2 ->
    fst (c w1) = fst (c w2) /\ same_session (snd (c w1)) (snd (c w2)).

(** ** Worlds, tables and events of the examples *)

(** No position file, a receiver on every IPC path, an empty screen. *)
Definition quiet_world : world :=
  World [] (fun _ => Listening []) None None None [] [].

(** A world in which every IPC path raises [BrokenPipeError]. *)
Definition deaf_world : world :=
  World [] (fun _ => Failing BrokenPipeError) None None None [] [].

(** A world whose position file is empty (a write that was cut short). *)
Definition truncated_world : world :=
  World [] (fun _ => Listening []) (Some (Garbled EOFError)) None None [] [].

(** A world in which the position file cannot be opened for writing. *)
Definition readonly_world : world :=
  World [] (fun _ => Listening []) None None (Some PermissionError) [] [].

(** A world in which the position file exists and cannot be opened for
    reading. *)
Definition unreadable_world : world :=
  World [] (fun _ => Listening []) (Some (Pickled (PyFloat 12.5)))
        (Some PermissionError) None [] [].

(** The table of the specification's scenarios. *)
Definition two_chapters : list chapter :=
  [Chapter 0 300 "Ch1"; Chapter 300 600 "Ch2"].

(** The events of two iterations in which an unmapped key is pressed; the
    first falls on a multiple of five seconds. *)
Definition two_ticks : list event :=
  [Event 1000.5 (ord "x"); Event 1001.5 (ord "x")].

(** The events of two iterations: 'p' is pressed in the first, an unmapped
    key in the second. *)
Definition pause_then_idle : list event :=
  [Event 1001.5 (ord "p"); Event 1002.5 (ord "x")].

(** The loop of a session on the two-chapter table that resumed from 0 and
    started at wall-clock time 1000. *)
Definition demo_loop : list event -> M unit :=
  while_true (tick "T" "A" two_chapters 600 (PyInt 0) "/tmp/mpv-socket" 1000).

(** ** Metadata provider *)

(** [get_metadata] reads the answer of [ffmpeg.probe].  The answer is
    modelled by the shape ffprobe gives it, restricted to the keys the
    function reads: a key that is absent is [None]; tags map strings to
    strings; times are the decimal strings ffprobe prints.  A dict of tags
    is the list of its items, with distinct keys. *)
Definition tags : Type := list (string * string).

Record probe_chapter : Type := ProbeChapter {
  pc_start_time : option string;
  pc_end_time : option string;
  pc_tags : option tags
}.

Record probe_format : Type := ProbeFormat {
  pf_tags : option tags;
  pf_duration : option string
}.

Record probe : Type := Probe {
  pr_format : option probe_format;
  pr_chapters : option (list probe_chapter)
}.

(** The built-ins of Python that [get_metadata] calls and that are not
    computed here: [float] on a string ([None] where it raises
    [ValueError]), [json.dumps(_, indent=4)] and the [str] of the list of
    chapter dicts inside an f-string. *)
Record builtins : Type := Builtins {
  float_of_str : string -> option float;
  json_dumps : probe -> text;
  str_chapter_info : list chapter -> text
}.

Module Metadata.

(** The exceptions the extraction raises. *)
Inductive exn : Type :=
| KeyError (key : string)
| ValueError (arg : string).

(** State and these exceptions. *)
Definition M (A : Type) : Type := world -> (exn + A) * world.

Definition ret {A} (a : A) : M A := fun w => (inr a, w).

Definition raise {A} (e : exn) : M A := fun w => (inl e, w).

Definition bind {A B} (c : M A) (k : A -> M B) : M B :=
  fun w =>
    match c w with
    | (inr a, w') => k a w'
    | (inl e, w') => (inl e, w')
    end.

Declare Scope metadata_scope.
Notation "x <- c ;; k" := (bind c (fun x => k))
  (at level 61, c at next level, right associativity) : metadata_scope.
Notation "c ;; k" := (bind c (fun _ => k))
  (at level 61, right associativity) : metadata_scope.
#[local] Open Scope metadata_scope.

Definition logging_debug (msg : text) : M unit :=
  fun w => (inr tt, logged msg w).

(** [d[key]] on a dict in which [key] maps to [field], if present. *)
Definition item {A} (key : string) (field : option A) : M A :=
  match field with
  | Some v => ret v
  | None => raise (KeyError key)
  end.

(** [d.get(key, default)]. *)
Fixpoint get (d : tags) (key default : string) : string :=
  match d with
  | [] => default
  | (k, v) :: rest => if String.eqb k key then v else get rest key default
  end.

Section Extraction.

Variable py : builtins.

(** [float(s)]. *)
Definition float_of (s : string) : M float :=
  match float_of_str py s with
  | Some x => ret x
  | None => raise (ValueError s)
  end.

(** The [for chapter in chapters] loop; [chapter_info] is the list built so
    far. *)
Fixpoint chapters_loop (chapters : list probe_chapter) (chapter_info : list chapter)
  : M (list chapter) :=
  match chapters with
  | [] => ret chapter_info
  | c :: rest =>
      s <- item "start_time" (pc_start_time c) ;;
      start <- float_of s ;;
      e <- item "end_time" (pc_end_time c) ;;
      stop <- float_of e ;;
      t <- item "tags" (pc_tags c) ;;
      chapters_loop rest
        (chapter_info ++ [Chapter start stop (get t "title" "Unknown Chapter")])
  end.

Definition get_metadata (metadata : probe)
  : M (string * string * list chapter) :=
  logging_debug [Lit "Full metadata:"] ;;
  logging_debug (json_dumps py metadata) ;;
  format <- item "format" (pr_format metadata) ;;
  t <- item "tags" (pf_tags format) ;;
  let title := get t "title" "Unknown Title" in
  format <- item "format" (pr_format metadata) ;;
  t <- item "tags" (pf_tags format) ;;
  let author := get t "artist" "Unknown Author" in
  let chapters :=                              (* metadata.get('chapters', []) *)
    match pr_chapters metadata with Some l => l | None => [] end in
  chapter_info <- chapters_loop chapters [] ;;
  logging_debug [Lit "Title: "; Lit title] ;;
  logging_debug [Lit "Author: "; Lit author] ;;
  logging_debug (Lit "Chapters: " :: str_chapter_info py chapter_info) ;;
  ret (title, author, chapter_info).

(** [float(ffmpeg.probe(...)['format']['duration'])] on the answer of the
    second probe. *)
Definition get_duration (answer : probe) : M float :=
  format <- item "format" (pr_format answer) ;;
  d <- item "duration" (pf_duration format) ;;
  float_of d.

(** [play_audiobook] from its first line: the two probes, then the session
    of [play_audiobook] above.  An exception of the session is the [inr] of
    a [Raise]. *)
Definition play_audiobook_from_probe (metadata answer : probe)
           (start_time : float) (events : list event) : M (outcome unit) :=
  r <- get_metadata metadata ;;
  let '(title, author, chapters) := r in
  total_duration <- get_duration answer ;;
  fun w =>
    let (o, w') := play_audiobook title author chapters total_duration
                                  start_time events w in
    (inr o, w').

End Extraction.

(** What the body of the loop makes of one chapter dict: the entry it
    appends, or the first exception in the order the dict literal is
    evaluated. *)
Definition convert (py : builtins) (c : probe_chapter) : exn + chapter :=
  match pc_start_time c with
  | None => inl (KeyError "start_time")
  | Some s =>
      match float_of_str py s with
      | None => inl (ValueError s)
      | Some start =>
          match pc_end_time c with
          | None => inl (KeyError "end_time")
          | Some e =>
              match float_of_str py e with
              | None => inl (ValueError e)
              | Some stop =>
                  match pc_tags c with
                  | None => inl (KeyError "tags")
                  | Some t =>
                      inr (Chapter start stop (get t "title" "Unknown Chapter"))
                  end
              end
          end
      end
  end.

(** The chapter list of the answer: [metadata.get('chapters', [])]. *)
Definition chapters_of (metadata : probe) : list probe_chapter :=
  match pr_chapters metadata with Some l => l | None => [] end.

End Metadata.

(** ** Further predicates and examples *)

(** The title the lookup returns, as a function of the table. *)
Definition located (t : float) (chapters : list chapter) : string :=
  match find (within t) chapters with
  | Some c => title c
  | None => "Unknown Chapter"%string
  end.

(** The six lines [display_info] draws. *)
Definition shown_frame (title author : string)
           (current_time time_left chapter_time : text)
           (current_chapter : string) : list (Z * Z * text) :=
  [(0, 0, [Lit "Title: "; Lit title]);
   (1, 0, [Lit "Author: "; Lit author]);
   (2, 0, Lit "Current Time: " :: current_time ++ Lit " / " :: chapter_time);
   (3, 0, Lit "Time Left in Chapter: " :: time_left);
   (4, 0, [Lit "Current Chapter: "; Lit current_chapter]);
   (5, 0, [Lit controls_line])]%Z.

(** The frame of an iteration whose elapsed time is [current_time]. *)
Definition tick_frame (title author : string) (chapters : list chapter)
           (chapter_time current_time : float) : list (Z * Z * text) :=
  shown_frame title author [FloatFixed2 current_time; Lit "s"]
              [FloatFixed2 (chapter_time - current_time); Lit "s"]
              [FloatFixed2 chapter_time; Lit "s"]
              (located current_time chapters).

(** [float] on the strings of the examples, and empty renderings. *)
Definition demo_builtins : builtins :=
  Builtins
    (fun s =>
       if String.eqb s "0.000000" then Some 0%float
       else if String.eqb s "300.000000" then Some 300%float
       else if String.eqb s "600.000000" then Some 600%float
       else None)
    (fun _ => [])
    (fun _ => []).

(** An answer with a titled book and two chapters, the second untitled. *)
Definition demo_probe : probe :=
  Probe (Some (ProbeFormat (Some [("title"%string, "The Book"%string)])
                           (Some "600.000000"%string)))
        (Some [ProbeChapter (Some "0.000000"%string) (Some "300.000000"%string)
                            (Some [("title"%string, "Ch1"%string)]);
               ProbeChapter (Some "300.000000"%string) (Some "600.000000"%string)
                            (Some [])]).

(** An answer for a file without tags and without chapters. *)
Definition untagged_probe : probe :=
  Probe (Some (ProbeFormat None (Some "600.000000"%string))) None.

(** * Properties *)

(** ** Facts on binary64 comparisons *)

Section Binary64.

Lemma SFcompare_refl (x : spec_float) :
  x <> S754_nan -> SFcompare x x = Some Eq.
Proof.
  destruct x as [s | s | | s m e]; intros Hnan; try congruence.
  - reflexivity.
  - destruct s; reflexivity.
  - cbn. rewrite Z.compare_refl, Pos.compare_cont_refl.
    destruct s; reflexivity.
Qed.

Lemma SFltb_irrefl (x : spec_float) : SFltb x x = false.
Proof.
  destruct x as [s | s | | s m e]; try reflexivity.
  - destruct s; reflexivity.
  - unfold SFltb. rewrite SFcompare_refl by discriminate. reflexivity.
Qed.

Lemma ltb_irrefl (x : float) : (x <? x)%float = false.
Proof. rewrite ltb_spec. apply SFltb_irrefl. Qed.

Lemma SFltb_not_nan_l (x y : spec_float) : SFltb x y = true -> x <> S754_nan.
Proof. intros H ->. discriminate H. Qed.

Lemma SFleb_not_nan_r (x y : spec_float) : SFleb x y = true -> y <> S754_nan.
Proof. intros H ->. destruct x; discriminate H. Qed.

Lemma ltb_leb_refl (x y : float) :
  (x <? y)%float = true -> (x <=? x)%float = true.
Proof.
  rewrite ltb_spec, leb_spec. intros H. unfold SFleb.
  rewrite SFcompare_refl; [reflexivity | exact (SFltb_not_nan_l _ _ H)].
Qed.

Lemma leb_eqb_refl (x y : float) :
  (x <=? y)%float = true -> (y =? y)%float = true.
Proof.
  rewrite leb_spec, eqb_spec. intros H. unfold SFeqb.
  rewrite SFcompare_refl; [reflexivity | exact (SFleb_not_nan_r _ _ H)].
Qed.

Lemma ltb_leb_refl_r (x y : float) :
  (x <? y)%float = true -> (y <=? y)%float = true.
Proof.
  rewrite ltb_spec, leb_spec. intros H. unfold SFleb.
  rewrite SFcompare_refl; [reflexivity |].
  intros Hy. rewrite Hy in H. destruct (Prim2SF x); discriminate H.
Qed.

End Binary64.

(** ** ChapterIndex *)

Section FirstMatch.

Variables (A : Type) (p : A -> bool).

(** [find] splits a list at its first element that satisfies [p]. *)
Lemma find_first l :
  match find p l with
  | Some x =>
      exists before rest,
        l = before ++ x :: rest
        /\ Forall (fun y => p y = false) before /\ p x = true
  | None => Forall (fun y => p y = false) l
  end.
Proof.
  induction l as [| a l IH]; cbn.
  - constructor.
  - destruct (p a) eqn:Ha.
    + exists [], l. repeat split; [constructor | exact Ha].
    + destruct (find p l) as [x |].
      * destruct IH as (before & rest & -> & Hb & Hx).
        exists (a :: before), rest. repeat split; [| exact Hx].
        constructor; assumption.
      * constructor; assumption.
Qed.

Lemma find_app_none l1 l2 :
  Forall (fun y => p y = false) l1 -> find p (l1 ++ l2) = find p l2.
Proof.
  induction 1 as [| a l Ha _ IH]; cbn; [reflexivity |].
  rewrite Ha. exact IH.
Qed.

End FirstMatch.

Arguments find_first {A} p l.
Arguments find_app_none {A} p l1 l2.

(** The value [scan_chapters] returns is that of the first chapter that
    passes the test, or the value of [current_chapter] it was entered with;
    the world only gains log entries. *)
Lemma scan_chapters_run current_time chapters :
  forall i current_chapter w,
  exists entries,
    scan_chapters current_time i chapters current_chapter w
    = (Return match find (within current_time) chapters with
              | Some c => title c
              | None => current_chapter
              end,
       set_debug_log (debug_log w ++ entries) w).
Proof.
  induction chapters as [| c rest IH]; intros i cur w; cbn [scan_chapters find].
  - exists []. unfold ret. rewrite app_nil_r. destruct w; reflexivity.
  - destruct (within current_time c) eqn:Hc.
    + eexists. unfold bind, logging_debug, ret. cbn.
      rewrite <- app_assoc. reflexivity.
    + unfold bind at 1, logging_debug.
      match goal with
      | |- context [scan_chapters _ _ _ _ ?w'] =>
          destruct (IH (S i) cur w') as (entries & ->)
      end.
      eexists. cbn. rewrite <- app_assoc. reflexivity.
Qed.

Lemma get_current_chapter_run current_time chapters w :
  exists entries,
    get_current_chapter current_time chapters w
    = (Return match find (within current_time) chapters with
              | Some c => title c
              | None => "Unknown Chapter"%string
              end,
       set_debug_log (debug_log w ++ entries) w).
Proof.
  unfold get_current_chapter, bind at 1, logging_debug.
  match goal with
  | |- context [scan_chapters ?t ?i ?l ?s ?w'] =>
      destruct (scan_chapters_run t l i s w') as (entries & ->)
  end.
  eexists. cbn. rewrite <- app_assoc. reflexivity.
Qed.

Lemma get_current_chapter_returns current_time chapters w :
  returns (get_current_chapter current_time chapters) w
          match find (within current_time) chapters with
          | Some c => title c
          | None => "Unknown Chapter"%string
          end.
Proof.
  unfold returns.
  destruct (get_current_chapter_run current_time chapters w) as (entries & ->).
  reflexivity.
Qed.

(** C1.  For every time and every chapter table, [get_current_chapter]
    returns: either the title of the first chapter in table order with
    [start_time <= t < end_time] (the chapters before it fail the test, so
    on overlapping chapters the first match wins), or, when no chapter
    passes the test (before the first chapter, in a gap, past the last end,
    empty table), the sentinel "Unknown Chapter". *)
Theorem get_current_chapter_first_match (t : float) (chapters : list chapter)
        (w : world) :
  (exists before c rest,
      chapters = before ++ c :: rest
      /\ Forall (fun c' => within t c' = false) before
      /\ within t c = true
      /\ returns (get_current_chapter t chapters) w (title c))
  \/ (Forall (fun c => within t c = false) chapters
      /\ returns (get_current_chapter t chapters) w "Unknown Chapter"%string).
Proof.
  pose proof (get_current_chapter_returns t chapters w) as Hret.
  pose proof (find_first (within t) chapters) as Hfind.
  destruct (find (within t) chapters) as [c |].
  - left. destruct Hfind as (before & rest & Heq & Hb & Hc).
    exists before, c, rest. auto.
  - right. auto.
Qed.

Lemma get_next_chapter_time_find t chapters :
  get_next_chapter_time t chapters
  = match find (fun c => (t <? start_time c)%float) chapters with
    | Some c => start_time c
    | None => t
    end.
Proof.
  induction chapters as [| c rest IH]; cbn; [reflexivity |].
  destruct (t <? start_time c)%float; [reflexivity | exact IH].
Qed.

Lemma sorted_by_start_app_r l1 l2 :
  sorted_by_start (l1 ++ l2) = true -> sorted_by_start l2 = true.
Proof.
  induction l1 as [| a l1 IH]; cbn; [trivial |].
  intros H. apply andb_true_iff in H. apply IH, H.
Qed.

(** C4, as the program has it.  For every time and chapter table,
    [get_next_chapter_time] either returns the start of the first chapter
    in index order whose start is strictly greater than [t], a value
    strictly greater than [t], which is the smallest such start when the
    table is sorted ascending by start; or, when no chapter starts after
    [t], returns [t] unchanged. *)
Theorem get_next_chapter_time_spec (t : float) (chapters : list chapter) :
  (exists before c rest,
      chapters = before ++ c :: rest
      /\ Forall (fun c' => (t <? start_time c')%float = false) before
      /\ (t <? start_time c)%float = true
      /\ get_next_chapter_time t chapters = start_time c
      /\ (t <? get_next_chapter_time t chapters)%float = true
      /\ (sorted_by_start chapters = true ->
          forall c', In c' chapters -> (t <? start_time c')%float = true ->
            (get_next_chapter_time t chapters <=? start_time c')%float = true))
  \/ (Forall (fun c => (t <? start_time c)%float = false) chapters
      /\ get_next_chapter_time t chapters = t).
Proof.
  rewrite get_next_chapter_time_find.
  pose proof (find_first (fun c => (t <? start_time c)%float) chapters) as Hfind.
  destruct (find _ chapters) as [c |]; [left | right; auto].
  destruct Hfind as (before & rest & Heq & Hb & Hc).
  exists before, c, rest. repeat split; auto.
  intros Hsorted c' Hin Hc'. subst chapters.
  apply in_app_or in Hin. destruct Hin as [Hin | [<- | Hin]].
  - rewrite Forall_forall in Hb. rewrite (Hb _ Hin) in Hc'. discriminate.
  - exact (ltb_leb_refl_r _ _ Hc).
  - apply sorted_by_start_app_r in Hsorted. cbn in Hsorted.
    apply andb_true_iff in Hsorted. destruct Hsorted as [Hall _].
    rewrite forallb_forall in Hall. exact (Hall _ Hin).
Qed.

(** The theorem before the first chapter of the scenario's table: the
    start returned is no later than that of the second chapter, by
    sortedness. *)
Lemma get_next_chapter_time_spec_witness :
  sorted_by_start two_chapters = true
  /\ In (Chapter 300 600 "Ch2") two_chapters
  /\ (-1 <? 300)%float = true
  /\ (get_next_chapter_time (-1) two_chapters <=? 300)%float = true.
Proof.
  assert (Hin : In (Chapter 300 600 "Ch2") two_chapters) by (right; left; reflexivity).
  split; [reflexivity | split; [exact Hin | split; [reflexivity |]]].
  destruct (get_next_chapter_time_spec (-1) two_chapters)
    as [(before & c & rest & _ & _ & _ & _ & _ & Hmin) | [Hnone _]].
  - apply (Hmin eq_refl (Chapter 300 600 "Ch2") Hin). reflexivity.
  - exfalso. rewrite Forall_forall in Hnone.
    specialize (Hnone (Chapter 300 600 "Ch2") Hin).
    discriminate Hnone.
Defined.

(** C4 as stated fails on the program: the scan stops at the first start
    after [t] in index order and nothing sorts the table.  On the table
    with starts 10 then 5, at [t = 0], it returns 10 although the chapter
    starting at 5 also starts after [t]; so the value returned is not the
    smallest chapter start strictly greater than [t] on every table. *)
Lemma smallest_start_counterexample :
  (let table := [Chapter 10 20 "B"; Chapter 5 10 "A"] in
   In (Chapter 5 10 "A") table
   /\ (0 <? start_time (Chapter 5 10 "A"))%float = true
   /\ get_next_chapter_time 0 table = 10%float
   /\ (get_next_chapter_time 0 table <=? start_time (Chapter 5 10 "A"))%float
      = false)
  /\ ~ (forall t chapters c',
          In c' chapters -> (t <? start_time c')%float = true ->
          (get_next_chapter_time t chapters <=? start_time c')%float = true).
Proof.
  split.
  - cbv zeta. split; [right; left; reflexivity | repeat split].
  - intros H.
    specialize (H 0%float [Chapter 10 20 "B"; Chapter 5 10 "A"] (Chapter 5 10 "A")
                  (or_intror (or_introl eq_refl)) eq_refl).
    discriminate H.
Qed.

(** Sortedness is what makes the first start after [t] the smallest: on a
    table that is not sorted the scan still stops at the first one. *)
Example first_start_on_unsorted_table :
  sorted_by_start [Chapter 10 20 "B"; Chapter 5 10 "A"] = false
  /\ get_next_chapter_time 0 [Chapter 10 20 "B"; Chapter 5 10 "A"] = 10%float.
Proof. split; reflexivity. Qed.

Lemma scan_previous_find t chapters :
  scan_previous t chapters
  = match find (fun c => (start_time c <? t)%float) chapters with
    | Some c => start_time c
    | None => t
    end.
Proof.
  induction chapters as [| c rest IH]; cbn; [reflexivity |].
  destruct (start_time c <? t)%float; [reflexivity | exact IH].
Qed.

(** C5.  For every time and chapter table, [get_previous_chapter_time]
    scans in reverse index order: it either returns the start of the last
    chapter in index order whose start is strictly less than [t] (every
    chapter after it fails the test), a value strictly less than [t], or,
    when no chapter starts before [t], returns [t] unchanged. *)
Theorem get_previous_chapter_time_spec (t : float) (chapters : list chapter) :
  (exists before c rest,
      chapters = before ++ c :: rest
      /\ (start_time c <? t)%float = true
      /\ Forall (fun c' => (start_time c' <? t)%float = false) rest
      /\ get_previous_chapter_time t chapters = start_time c
      /\ (get_previous_chapter_time t chapters <? t)%float = true)
  \/ (Forall (fun c => (start_time c <? t)%float = false) chapters
      /\ get_previous_chapter_time t chapters = t).
Proof.
  unfold get_previous_chapter_time. rewrite scan_previous_find.
  pose proof (find_first (fun c => (start_time c <? t)%float) (rev chapters))
    as Hfind.
  destruct (find _ (rev chapters)) as [c |].
  - left. destruct Hfind as (after_c & before_c & Heq & Hafter & Hc).
    exists (rev before_c), c, (rev after_c). repeat split; auto.
    + rewrite <- (rev_involutive chapters), Heq, rev_app_distr. cbn.
      rewrite <- app_assoc. reflexivity.
    + apply Forall_rev. exact Hafter.
  - right. split; [| reflexivity].
    rewrite <- (rev_involutive chapters). apply Forall_rev. exact Hfind.
Qed.

(** C6, as the program has it.  For every chapter [c] and table, the test
    of the lookup fails for [c] at [t = end_time c] (the end is exclusive),
    so [get_current_chapter (end_time c)] returns the title of the first
    chapter in index order whose range contains [end_time c], a chapter
    other than [c], or "Unknown Chapter" when no chapter's range contains
    it; it returns the title of a chapter that starts at [end_time c] and is
    not empty when no chapter before that one in the table contains
    [end_time c]. *)
Theorem end_time_is_exclusive (c : chapter) (chapters : list chapter) (w : world) :
  within (end_time c) c = false
  /\ ((exists before d rest,
          chapters = before ++ d :: rest
          /\ Forall (fun c' => within (end_time c) c' = false) before
          /\ within (end_time c) d = true
          /\ d <> c
          /\ returns (get_current_chapter (end_time c) chapters) w (title d))
      \/ (Forall (fun c' => within (end_time c) c' = false) chapters
          /\ returns (get_current_chapter (end_time c) chapters) w
                     "Unknown Chapter"%string))
  /\ (forall before d rest,
         chapters = before ++ d :: rest ->
         Forall (fun c' => within (end_time c) c' = false) before ->
         start_time d = end_time c ->
         (start_time d <? end_time d)%float = true ->
         returns (get_current_chapter (end_time c) chapters) w (title d)).
Proof.
  assert (Hc : within (end_time c) c = false).
  { unfold within. rewrite ltb_irrefl. apply andb_false_r. }
  split; [exact Hc | split].
  - pose proof (get_current_chapter_returns (end_time c) chapters w) as Hret.
    pose proof (find_first (within (end_time c)) chapters) as Hfind.
    destruct (find _ chapters) as [d |]; [left | right; auto].
    destruct Hfind as (before & rest & Heq & Hb & Hd).
    exists before, d, rest. repeat split; auto.
    intros ->. rewrite Hc in Hd. discriminate.
  - intros before d rest -> Hb Hstart Hd.
    pose proof (get_current_chapter_returns (end_time c) (before ++ d :: rest) w)
      as Hret.
    rewrite (find_app_none _ _ _ Hb) in Hret. cbn [find] in Hret.
    assert (Hin : within (end_time c) d = true).
    { unfold within. rewrite <- Hstart, Hd, (ltb_leb_refl _ _ Hd). reflexivity. }
    rewrite Hin in Hret. exact Hret.
Qed.

(** The theorem at the boundary between the two chapters of the scenario. *)
Lemma end_time_is_exclusive_witness :
  returns (get_current_chapter 300 two_chapters) quiet_world "Ch2"%string.
Proof.
  destruct (end_time_is_exclusive (Chapter 0 300 "Ch1") two_chapters quiet_world)
    as (_ & _ & Hnext).
  apply (Hnext [Chapter 0 300 "Ch1"] (Chapter 300 600 "Ch2") []).
  - reflexivity.
  - repeat constructor.
  - reflexivity.
  - reflexivity.
Defined.

(** C6 as stated fails on the program.  A chapter without a title tag is
    named "Unknown Chapter" by [get_metadata], and the lookup at its end
    returns that very title; and on overlapping chapters the lookup at the
    end of the first returns the second although no chapter starts there. *)
Lemma end_time_counterexample :
  (let c := Chapter 0 300 "Unknown Chapter" in
   In c [c]
   /\ returns (get_current_chapter (end_time c) [c]) quiet_world (title c))
  /\ (let c := Chapter 0 300 "Ch1" in
      let table := [c; Chapter 200 600 "Ch2"] in
      In c table
      /\ forallb (fun d => negb (start_time d =? end_time c)%float) table = true
      /\ returns (get_current_chapter (end_time c) table) quiet_world "Ch2"%string).
Proof.
  split; cbn zeta.
  - split; [left; reflexivity | reflexivity].
  - split; [left; reflexivity | split; reflexivity].
Qed.

(** The scenarios of the specification on the two-chapter table. *)
Example locate_scenario :
  returns (get_current_chapter 150 two_chapters) quiet_world "Ch1"%string
  /\ returns (get_current_chapter 300 two_chapters) quiet_world "Ch2"%string
  /\ returns (get_current_chapter 600 two_chapters) quiet_world
             "Unknown Chapter"%string.
Proof. repeat split. Qed.

Example neighbours_scenario :
  get_next_chapter_time 400 two_chapters = 400%float
  /\ get_previous_chapter_time 400 two_chapters = 300%float
  /\ get_next_chapter_time 50 two_chapters = 300%float
  /\ get_previous_chapter_time 50 two_chapters = 0%float.
Proof. repeat split. Qed.

(** ** PlayerChannel *)

Lemma send_ipc_command_listening ipc_socket command w received :
  channels w ipc_socket = Listening received ->
  send_ipc_command ipc_socket command w
  = (Return tt,
     set_channel ipc_socket (Listening (received ++ [line command]))
       (set_debug_log
          (debug_log w ++ [(DEBUG, Lit "Sending command to mpv: " :: command)]) w)).
Proof.
  intros H. unfold send_ipc_command, bind, try_except, logging_debug, write_flush.
  cbn. rewrite H. reflexivity.
Qed.

Lemma send_ipc_command_failing ipc_socket command w e :
  channels w ipc_socket = Failing e ->
  send_ipc_command ipc_socket command w
  = (Return tt,
     set_debug_log
       (debug_log w ++ [(DEBUG, Lit "Sending command to mpv: " :: command);
                        (ERROR, [Lit "Error sending command to mpv: "; ExnRepr e])])
       w).
Proof.
  intros H. unfold send_ipc_command, bind, try_except, logging_debug, write_flush,
    logging_error.
  cbn. rewrite H. cbn. rewrite <- app_assoc. reflexivity.
Qed.

Lemma send_ipc_command_returns ipc_socket command w :
  fst (send_ipc_command ipc_socket command w) = Return tt.
Proof.
  destruct (channels w ipc_socket) as [received | e] eqn:H.
  - rewrite (send_ipc_command_listening _ _ _ _ H). reflexivity.
  - rewrite (send_ipc_command_failing _ _ _ _ H). reflexivity.
Qed.

Lemma channels_set_channel path c w :
  channels (set_channel path c w) path = c.
Proof. cbn. rewrite String.eqb_refl. reflexivity. Qed.

Section KeyCases.

Variables (ipc_socket : string) (t : float) (chapters : list chapter) (w : world).

Lemma handle_p :
  handle_playback_controls ipc_socket (ord "p") t chapters w
  = send_ipc_command ipc_socket [Lit "cycle pause"] (pressed "p" w).
Proof. reflexivity. Qed.

Lemma handle_s :
  handle_playback_controls ipc_socket (ord "s") t chapters w
  = (send_ipc_command ipc_socket [Lit "stop"] ;;
     send_ipc_command ipc_socket [Lit "no-screenshot"]) (pressed "s" w).
Proof. reflexivity. Qed.

Lemma handle_f :
  handle_playback_controls ipc_socket (ord "f") t chapters w
  = send_ipc_command ipc_socket [Lit "seek 30 relative"] (pressed "f" w).
Proof. reflexivity. Qed.

Lemma handle_b :
  handle_playback_controls ipc_socket (ord "b") t chapters w
  = send_ipc_command ipc_socket [Lit "seek -30 relative"] (pressed "b" w).
Proof. reflexivity. Qed.

Lemma handle_n :
  handle_playback_controls ipc_socket (ord "n") t chapters w
  = send_ipc_command ipc_socket
      [Lit "seek "; FloatRepr (get_next_chapter_time t chapters); Lit " absolute"]
      (logged [Lit "Skipping to next chapter at time: ";
               FloatRepr (get_next_chapter_time t chapters)] (pressed "n" w)).
Proof. reflexivity. Qed.

Lemma handle_m :
  handle_playback_controls ipc_socket (ord "m") t chapters w
  = send_ipc_command ipc_socket
      [Lit "seek "; FloatRepr (get_previous_chapter_time t chapters);
       Lit " absolute"]
      (logged [Lit "Skipping to previous chapter at time: ";
               FloatRepr (get_previous_chapter_time t chapters)] (pressed "m" w)).
Proof. reflexivity. Qed.

End KeyCases.

(** C9.  With a receiver listening on the IPC path, [handle_playback_controls]
    delivers exactly: for 'p' the line "cycle pause"; for 's' the line
    "stop" followed by the line "no-screenshot"; for 'f' "seek 30 relative";
    for 'b' "seek -30 relative"; for 'n' and 'm' "seek <target> absolute",
    the target being [get_next_chapter_time], respectively
    [get_previous_chapter_time], at the current time passed in. *)
Theorem keymap_encoding (ipc_socket : string) (t : float)
        (chapters : list chapter) (w : world) (received : list text) :
  channels w ipc_socket = Listening received ->
  let delivered key :=
    channels (after (handle_playback_controls ipc_socket (ord key) t chapters) w)
             ipc_socket in
  delivered "p"%char = Listening (received ++ [line [Lit "cycle pause"]])
  /\ delivered "s"%char
     = Listening (received ++ [line [Lit "stop"]; line [Lit "no-screenshot"]])
  /\ delivered "f"%char = Listening (received ++ [line [Lit "seek 30 relative"]])
  /\ delivered "b"%char = Listening (received ++ [line [Lit "seek -30 relative"]])
  /\ delivered "n"%char
     = Listening (received ++ [line [Lit "seek ";
                                     FloatRepr (get_next_chapter_time t chapters);
                                     Lit " absolute"]])
  /\ delivered "m"%char
     = Listening (received ++ [line [Lit "seek ";
                                     FloatRepr (get_previous_chapter_time t chapters);
                                     Lit " absolute"]]).
Proof.
  intros H delivered. subst delivered. unfold after.
  assert (Hk : forall key, channels (pressed key w) ipc_socket = Listening received)
    by (intro; exact H).
  rewrite handle_p, handle_s, handle_f, handle_b, handle_n, handle_m.
  unfold bind.
  repeat rewrite (send_ipc_command_listening _ _ _ _ (Hk _)).
  rewrite (send_ipc_command_listening ipc_socket [Lit "no-screenshot"] _ _
             (channels_set_channel _ _ _)).
  rewrite !(send_ipc_command_listening _ _ (logged _ (pressed _ w)) _ H).
  cbn [snd]. rewrite !channels_set_channel, <- app_assoc.
  repeat split.
Qed.

Lemma keymap_encoding_witness :
  channels (after (handle_playback_controls "/tmp/mpv-socket" (ord "n") 50
                                            two_chapters) quiet_world)
           "/tmp/mpv-socket"
  = Listening [line [Lit "seek "; FloatRepr 300; Lit " absolute"]].
Proof.
  destruct (keymap_encoding "/tmp/mpv-socket" 50 two_chapters quiet_world []
                            eq_refl)
    as (_ & _ & _ & _ & Hn & _).
  exact Hn.
Defined.

Lemma unmapped_tests key :
  ~ In key mapped_keys ->
  (key =? ord "p")%Z = false /\ (key =? ord "s")%Z = false
  /\ (key =? ord "f")%Z = false /\ (key =? ord "b")%Z = false
  /\ (key =? ord "n")%Z = false /\ (key =? ord "m")%Z = false.
Proof.
  intros H. repeat split; apply Z.eqb_neq; intros ->; apply H; cbn; tauto.
Qed.

Lemma handle_unmapped ipc_socket key t chapters w :
  ~ In key mapped_keys ->
  handle_playback_controls ipc_socket key t chapters w
  = if valid_code key
    then (Return tt, logged [Lit "Handling key press: "; CharOf key] w)
    else (Raise ValueError, w).
Proof.
  intros H. destruct (unmapped_tests key H) as (Hp & Hs & Hf & Hb & Hn & Hm).
  unfold handle_playback_controls, bind at 1, chr.
  destruct (valid_code key); [| reflexivity].
  unfold ret, bind at 1, logging_debug.
  rewrite Hp, Hs, Hf, Hb, Hn, Hm. reflexivity.
Qed.

(** C10.  For every key outside the keymap, [handle_playback_controls]
    sends nothing: what is behind every IPC path is as before, the position
    file and the screen are as before, and the only log entry it may add is
    the one naming the key.  (It returns for a key that is a code point and
    raises [ValueError] from [chr] otherwise, as for the -1 of an idle
    [getch].) *)
Theorem unmapped_key_sends_nothing (ipc_socket : string) (key : Z) (t : float)
        (chapters : list chapter) (w : world) :
  ~ In key mapped_keys ->
  let w' := after (handle_playback_controls ipc_socket key t chapters) w in
  (forall path, channels w' path = channels w path)
  /\ same_session w w'
  /\ debug_log w'
     = debug_log w
       ++ (if valid_code key
           then [(DEBUG, [Lit "Handling key press: "; CharOf key])]
           else [])
  /\ fst (handle_playback_controls ipc_socket key t chapters w)
     = if valid_code key then Return tt else Raise ValueError.
Proof.
  intros H w'. subst w'. unfold after. rewrite (handle_unmapped _ _ _ _ _ H).
  destruct (valid_code key); cbn.
  - repeat split; reflexivity.
  - rewrite app_nil_r. repeat split; reflexivity.
Qed.

Lemma unmapped_key_sends_nothing_witness :
  ~ In (ord "x") mapped_keys
  /\ channels (after (handle_playback_controls "/tmp/mpv-socket" (ord "x") 50
                                               two_chapters) quiet_world)
              "/tmp/mpv-socket"
     = Listening [].
Proof.
  assert (H : ~ In (ord "x") mapped_keys).
  { cbn. intros [H | [H | [H | [H | [H | [H | []]]]]]]; discriminate H. }
  split; [exact H |].
  destruct (unmapped_key_sends_nothing "/tmp/mpv-socket" (ord "x") 50
                                       two_chapters quiet_world H)
    as (Hsame & _).
  exact (Hsame "/tmp/mpv-socket"%string).
Defined.

(** ** PositionStore *)

Lemma load_playback_position_run w :
  load_playback_position w
  = (match pkl_read_fault w with
     | Some e => if is_FileNotFoundError e then Return (PyInt 0) else Raise e
     | None =>
         match pkl_contents w with
         | None => Return (PyInt 0)
         | Some (Pickled v) => Return v
         | Some (Garbled e) =>
             if is_FileNotFoundError e then Return (PyInt 0) else Raise e
         end
     end, w).
Proof.
  unfold load_playback_position, try_except, bind, open_rb, pickle_load.
  destruct w as [log chans contents read_fault write_fault win shown]; cbn.
  destruct read_fault as [e |].
  - destruct e; reflexivity.
  - destruct contents as [[v | e] |]; try reflexivity.
    destruct e; reflexivity.
Qed.

(** C2, as the program has it.  [load_playback_position] changes nothing
    and returns the pickled object when the position file opens and
    unpickles; it returns 0 when there is no position file and whenever
    [FileNotFoundError] is raised; every other error of [open] or of
    [pickle.load] is raised to the caller. *)
Theorem load_playback_position_cases (w : world) :
  after load_playback_position w = w
  /\ (forall v,
        pkl_read_fault w = None -> pkl_contents w = Some (Pickled v) ->
        returns load_playback_position w v)
  /\ (pkl_read_fault w = None -> pkl_contents w = None ->
      returns load_playback_position w (PyInt 0))
  /\ (forall e,
        pkl_read_fault w = Some e ->
        fst (load_playback_position w)
        = if is_FileNotFoundError e then Return (PyInt 0) else Raise e)
  /\ (forall e,
        pkl_read_fault w = None -> pkl_contents w = Some (Garbled e) ->
        fst (load_playback_position w)
        = if is_FileNotFoundError e then Return (PyInt 0) else Raise e).
Proof.
  unfold after, returns. rewrite load_playback_position_run. cbn [fst snd].
  split; [reflexivity |].
  repeat split; intros; repeat match goal with H : _ = _ |- _ => rewrite H end;
    reflexivity.
Qed.

Lemma load_playback_position_cases_witness :
  returns load_playback_position
          (set_pkl_contents (Some (Pickled (PyFloat 12.5))) quiet_world)
          (PyFloat 12.5)
  /\ returns load_playback_position quiet_world (PyInt 0)
  /\ raises load_playback_position unreadable_world PermissionError
  /\ raises load_playback_position truncated_world EOFError.
Proof.
  split; [| split; [| split]].
  - destruct (load_playback_position_cases
                (set_pkl_contents (Some (Pickled (PyFloat 12.5))) quiet_world))
      as (_ & H & _).
    exact (H (PyFloat 12.5) eq_refl eq_refl).
  - destruct (load_playback_position_cases quiet_world) as (_ & _ & H & _).
    exact (H eq_refl eq_refl).
  - destruct (load_playback_position_cases unreadable_world)
      as (_ & _ & _ & H & _).
    exact (H PermissionError eq_refl).
  - destruct (load_playback_position_cases truncated_world)
      as (_ & _ & _ & _ & H).
    exact (H EOFError eq_refl eq_refl).
Defined.

(** C2 as stated fails on the program: on a position file that is empty
    (a deserialize error) [load_playback_position] does not return 0, it
    raises [EOFError] to its caller, and [play_audiobook] leaves with that
    exception before it has shown anything. *)
Lemma load_counterexample :
  raises load_playback_position truncated_world EOFError
  /\ ~ returns load_playback_position truncated_world (PyInt 0)
  /\ raises (play_audiobook "T" "A" two_chapters 600 1000 [Event 1000.5 (ord "x")])
            truncated_world EOFError
  /\ frames (after (play_audiobook "T" "A" two_chapters 600 1000
                                   [Event 1000.5 (ord "x")])
                   truncated_world) = [].
Proof.
  repeat split. intros H. discriminate H.
Qed.

Lemma save_playback_position_run position w :
  save_playback_position position w
  = match pkl_write_fault w with
    | Some e => (Raise e, w)
    | None => (Return tt, set_pkl_contents (Some (Pickled position)) w)
    end.
Proof.
  unfold save_playback_position, bind, open_wb, pickle_dump.
  cbv beta.
  destruct (pkl_write_fault w); reflexivity.
Qed.

(** C8.  When the position file can be opened for writing and for reading,
    [save_playback_position x] returns and a following
    [load_playback_position] returns exactly [x]; for [x >= 0] the value
    loaded is equal to [x] under the float comparison [==] as well. *)
Theorem save_then_load (x : float) (w : world) :
  pkl_write_fault w = None ->
  pkl_read_fault w = None ->
  returns (save_playback_position (PyFloat x)) w tt
  /\ returns load_playback_position
             (after (save_playback_position (PyFloat x)) w) (PyFloat x)
  /\ returns (save_playback_position (PyFloat x) ;; load_playback_position) w
             (PyFloat x)
  /\ ((0 <=? x)%float = true ->
      exists y,
        returns (save_playback_position (PyFloat x) ;; load_playback_position) w
                (PyFloat y)
        /\ (y =? x)%float = true).
Proof.
  intros Hw Hr.
  assert (Hsave : save_playback_position (PyFloat x) w
                  = (Return tt, set_pkl_contents (Some (Pickled (PyFloat x))) w)).
  { rewrite save_playback_position_run, Hw. reflexivity. }
  assert (Hload : fst (load_playback_position
                         (set_pkl_contents (Some (Pickled (PyFloat x))) w))
                  = Return (PyFloat x)).
  { rewrite load_playback_position_run. cbn. rewrite Hr. reflexivity. }
  assert (Hboth : returns (save_playback_position (PyFloat x) ;;
                           load_playback_position) w (PyFloat x)).
  { unfold returns, bind. rewrite Hsave. exact Hload. }
  unfold returns, after. rewrite Hsave. cbn [fst snd].
  repeat split; auto.
  intros Hx. exists x. split; [exact Hboth | exact (leb_eqb_refl _ _ Hx)].
Qed.

Lemma save_then_load_witness :
  returns (save_playback_position (PyFloat 12.5) ;; load_playback_position)
          quiet_world (PyFloat 12.5)
  /\ exists y,
       returns (save_playback_position (PyFloat 12.5) ;; load_playback_position)
               quiet_world (PyFloat y)
       /\ (y =? 12.5)%float = true.
Proof.
  destruct (save_then_load 12.5 quiet_world eq_refl eq_refl)
    as (_ & _ & Hboth & Heq).
  split; [exact Hboth | exact (Heq eq_refl)].
Defined.

(** ** PlaybackSession *)

Lemma same_session_refl w : same_session w w.
Proof. repeat split. Qed.

Lemma same_session_sym w1 w2 : same_session w1 w2 -> same_session w2 w1.
Proof. intros (H1 & H2 & H3 & H4 & H5). repeat split; congruence. Qed.

Lemma same_session_trans w1 w2 w3 :
  same_session w1 w2 -> same_session w2 w3 -> same_session w1 w3.
Proof.
  intros (H1 & H2 & H3 & H4 & H5) (K1 & K2 & K3 & K4 & K5).
  repeat split; congruence.
Qed.

Lemma harmless_ret : harmless (ret tt).
Proof. intros w. split; [reflexivity | apply same_session_refl]. Qed.

Lemma harmless_bind (c k : M unit) :
  harmless c -> harmless k -> harmless (c ;; k).
Proof.
  intros Hc Hk w. unfold bind. destruct (Hc w) as [Hf Hs].
  destruct (c w) as [o w']. cbn in Hf, Hs. subst o.
  destruct (Hk w') as [Hf' Hs']. split; [exact Hf' |].
  exact (same_session_trans _ _ _ Hs Hs').
Qed.

Lemma harmless_logging_debug msg : harmless (logging_debug msg).
Proof. intros w. repeat split. Qed.

Lemma harmless_send_ipc_command ipc_socket command :
  harmless (send_ipc_command ipc_socket command).
Proof.
  intros w. split; [apply send_ipc_command_returns |].
  destruct (channels w ipc_socket) as [received | e] eqn:H.
  - rewrite (send_ipc_command_listening _ _ _ _ H). repeat split.
  - rewrite (send_ipc_command_failing _ _ _ _ H). repeat split.
Qed.

Create HintDb session.

#[local] Hint Resolve harmless_ret harmless_bind harmless_logging_debug
  harmless_send_ipc_command : session.

(** With a key that is a code point, handling it returns and touches
    neither the position file nor the screen, whatever is behind the IPC
    path. *)
Lemma handle_playback_controls_harmless ipc_socket key t chapters :
  valid_code key = true ->
  harmless (handle_playback_controls ipc_socket key t chapters).
Proof.
  intros Hkey.
  assert (H : handle_playback_controls ipc_socket key t chapters
              = (logging_debug [Lit "Handling key press: "; CharOf key] ;;
                 if (key =? ord "p")%Z then
                   send_ipc_command ipc_socket [Lit "cycle pause"]
                 else if (key =? ord "s")%Z then
                   send_ipc_command ipc_socket [Lit "stop"] ;;
                   send_ipc_command ipc_socket [Lit "no-screenshot"]
                 else if (key =? ord "f")%Z then
                   send_ipc_command ipc_socket [Lit "seek 30 relative"]
                 else if (key =? ord "b")%Z then
                   send_ipc_command ipc_socket [Lit "seek -30 relative"]
                 else if (key =? ord "n")%Z then
                   logging_debug [Lit "Skipping to next chapter at time: ";
                                  FloatRepr (get_next_chapter_time t chapters)] ;;
                   send_ipc_command ipc_socket
                     [Lit "seek "; FloatRepr (get_next_chapter_time t chapters);
                      Lit " absolute"]
                 else if (key =? ord "m")%Z then
                   logging_debug [Lit "Skipping to previous chapter at time: ";
                                  FloatRepr (get_previous_chapter_time t chapters)] ;;
                   send_ipc_command ipc_socket
                     [Lit "seek "; FloatRepr (get_previous_chapter_time t chapters);
                      Lit " absolute"]
                 else ret tt)).
  { unfold handle_playback_controls, chr. rewrite Hkey.
    reflexivity. }
  rewrite H. apply harmless_bind; [auto with session |].
  repeat match goal with
         | |- harmless (if ?b then _ else _) => destruct b
         end; auto with session.
Qed.

Lemma handle_playback_controls_invalid ipc_socket key t chapters w :
  valid_code key = false ->
  handle_playback_controls ipc_socket key t chapters w = (Raise ValueError, w).
Proof.
  intros Hkey. unfold handle_playback_controls, bind at 1, chr.
  rewrite Hkey. reflexivity.
Qed.

(** *** Runs that differ only behind the IPC paths *)

Lemma respects_ret {A} (a : A) : respects (ret a).
Proof. intros w1 w2 H. split; [reflexivity | exact H]. Qed.

Lemma respects_lift {A} (o : outcome A) : respects (lift o).
Proof. intros w1 w2 H. split; [reflexivity | exact H]. Qed.

Lemma respects_bind {A B} (c : M A) (k : A -> M B) :
  respects c -> (forall a, respects (k a)) -> respects (bind c k).
Proof.
  intros Hc Hk w1 w2 H. unfold bind. destruct (Hc w1 w2 H) as [Hf Hs].
  destruct (c w1) as [o1 w1'], (c w2) as [o2 w2']. cbn in Hf, Hs. subst o2.
  destruct o1 as [a | e]; [apply Hk; exact Hs | split; [reflexivity | exact Hs]].
Qed.

Lemma respects_harmless (c : M unit) : harmless c -> respects c.
Proof.
  intros Hc w1 w2 H. destruct (Hc w1) as [Hf1 Hs1], (Hc w2) as [Hf2 Hs2].
  split; [congruence |].
  apply same_session_trans with w2; [| exact Hs2].
  apply same_session_trans with w1; [apply same_session_sym; exact Hs1 | exact H].
Qed.

Lemma respects_get_current_chapter t chapters :
  respects (get_current_chapter t chapters).
Proof.
  intros w1 w2 H.
  destruct (get_current_chapter_run t chapters w1) as (l1 & ->).
  destruct (get_current_chapter_run t chapters w2) as (l2 & ->).
  split; [reflexivity | exact H].
Qed.

Lemma respects_handle_playback_controls ipc_socket key t chapters :
  respects (handle_playback_controls ipc_socket key t chapters).
Proof.
  destruct (valid_code key) eqn:Hkey.
  - apply respects_harmless, handle_playback_controls_harmless, Hkey.
  - intros w1 w2 H. rewrite !handle_playback_controls_invalid by exact Hkey.
    split; [reflexivity | exact H].
Qed.

Lemma respects_display_info title author current_time time_left chapter_time
      current_chapter :
  respects (display_info title author current_time time_left chapter_time
                         current_chapter).
Proof.
  intros [l1 c1 p1 r1 f1 s1 v1] [l2 c2 p2 r2 f2 s2 v2] (H1 & H2 & H3 & H4 & H5).
  cbn in H1, H2, H3, H4, H5. subst.
  repeat split.
Qed.

Lemma respects_save_playback_position position :
  respects (save_playback_position position).
Proof.
  intros [l1 c1 p1 r1 f1 s1 v1] [l2 c2 p2 r2 f2 s2 v2] (H1 & H2 & H3 & H4 & H5).
  cbn in H1, H2, H3, H4, H5. subst. rewrite !save_playback_position_run.
  cbn. destruct f2; repeat split.
Qed.

Lemma respects_tick title author chapters chapter_time playback_position
      ipc_socket start_time ev :
  respects (tick title author chapters chapter_time playback_position
                 ipc_socket start_time ev).
Proof.
  unfold tick.
  apply respects_bind; [apply respects_lift | intros current_time].
  apply respects_bind; [apply respects_get_current_chapter | intros current_chapter].
  apply respects_bind; [apply respects_display_info | intros _].
  apply respects_bind; [apply respects_handle_playback_controls | intros _].
  apply respects_bind; [apply respects_lift | intros seconds].
  apply respects_bind; [| intros _; apply respects_ret].
  destruct (seconds mod 5 =? 0)%Z;
    [apply respects_save_playback_position | apply respects_ret].
Qed.

Lemma respects_while_true body events :
  (forall ev, respects (body ev)) -> respects (while_true body events).
Proof.
  intros Hbody. induction events as [| ev rest IH]; cbn [while_true].
  - apply respects_ret.
  - apply respects_bind; [apply Hbody | intros _; exact IH].
Qed.

Lemma display_info_run title author current_time time_left chapter_time
      current_chapter w :
  exists shown,
    display_info title author current_time time_left chapter_time
                 current_chapter w
    = (Return tt, set_frames (frames w ++ [shown]) (set_window shown w)).
Proof. eexists. reflexivity. Qed.

(** One iteration up to the periodic save: when the arithmetic succeeds and
    the key is a code point, the iteration publishes one frame, leaves the
    position file alone and arrives at step 6. *)
Lemma tick_reaches_save title author chapters chapter_time playback_position
      ipc_socket start_time ev w current_time seconds :
  float_add (ev_now ev - start_time)%float playback_position = Return current_time ->
  valid_code (ev_key ev) = true ->
  int_of_float current_time = Return seconds ->
  exists w3,
    pkl_contents w3 = pkl_contents w
    /\ pkl_read_fault w3 = pkl_read_fault w
    /\ pkl_write_fault w3 = pkl_write_fault w
    /\ List.length (frames w3) = S (List.length (frames w))
    /\ tick title author chapters chapter_time playback_position ipc_socket
            start_time ev w
       = ((if (seconds mod 5 =? 0)%Z
           then save_playback_position (PyFloat current_time)
           else ret tt) ;; time_sleep 1) w3.
Proof.
  intros Hadd Hkey Hint. unfold tick.
  unfold bind at 1, lift. rewrite Hadd.
  destruct (get_current_chapter_run current_time chapters w) as (entries & Hg).
  unfold bind at 1. rewrite Hg.
  unfold bind at 1.
  match goal with
  | |- context [display_info ?a ?b ?c ?d ?e ?f ?w1] =>
      destruct (display_info_run a b c d e f w1) as (shown & Hd)
  end.
  rewrite Hd. unfold bind at 1.
  match goal with
  | |- context [handle_playback_controls ?s ?k ?t ?c ?w2] =>
      destruct (handle_playback_controls_harmless s k t c Hkey w2)
        as [Hf (H1 & H2 & H3 & H4 & H5)];
      destruct (handle_playback_controls s k t c w2) as [o w3] eqn:Hh
  end.
  cbn in Hf, H1, H2, H3, H4, H5. subst o.
  unfold bind at 1, lift. rewrite Hint.
  exists w3. repeat split; try congruence.
  rewrite <- H5, length_app. cbn. lia.
Qed.

(** C3, as the program has it.  [save_playback_position] has no failure
    result: it returns, or it raises what [open] raised.  In an iteration
    that reaches the periodic save, an exception of the save is raised out
    of the loop in that very iteration, after its frame was shown and
    before any later iteration; when the position file can be written the
    iteration returns and the loop goes on with the next one. *)
Theorem save_failure_leaves_the_loop
        (title author : string) (chapters : list chapter) (chapter_time : float)
        (playback_position : pyval) (ipc_socket : string) (start_time : float)
        (ev : event) (rest : list event) (w : world)
        (current_time : float) (seconds : Z) :
  float_add (ev_now ev - start_time)%float playback_position = Return current_time ->
  valid_code (ev_key ev) = true ->
  int_of_float current_time = Return seconds ->
  (seconds mod 5 = 0)%Z ->
  let body := tick title author chapters chapter_time playback_position
                   ipc_socket start_time in
  (forall position w0,
      fst (save_playback_position position w0)
      = match pkl_write_fault w0 with Some e => Raise e | None => Return tt end)
  /\ (forall e,
        pkl_write_fault w = Some e ->
        raises (while_true body (ev :: rest)) w e
        /\ List.length (frames (after (while_true body (ev :: rest)) w))
           = S (List.length (frames w)))
  /\ (pkl_write_fault w = None ->
      returns (body ev) w tt
      /\ while_true body (ev :: rest) w = while_true body rest (after (body ev) w)).
Proof.
  intros Hadd Hkey Hint Hmod body.
  destruct (tick_reaches_save title author chapters chapter_time
              playback_position ipc_socket start_time ev w current_time seconds
              Hadd Hkey Hint)
    as (w3 & H1 & H2 & H3 & Hlen & Htick).
  fold body in Htick. apply Z.eqb_eq in Hmod. rewrite Hmod in Htick.
  split; [| split].
  - intros position w0. rewrite save_playback_position_run.
    destruct (pkl_write_fault w0); reflexivity.
  - intros e He.
    assert (Hbody : body ev w = (Raise e, w3)).
    { rewrite Htick. unfold bind. rewrite save_playback_position_run, H3, He.
      reflexivity. }
    unfold raises, after. cbn [while_true]. unfold bind. rewrite Hbody.
    split; [reflexivity | exact Hlen].
  - intros Hok.
    assert (Hbody : body ev w
                    = (Return tt,
                       set_pkl_contents (Some (Pickled (PyFloat current_time))) w3)).
    { rewrite Htick. unfold bind. rewrite save_playback_position_run, H3, Hok.
      reflexivity. }
    unfold returns, after. cbn [while_true]. unfold bind at 1. rewrite Hbody.
    split; reflexivity.
Qed.

Lemma save_failure_leaves_the_loop_witness :
  raises (demo_loop two_ticks) readonly_world PermissionError
  /\ List.length (frames (after (demo_loop two_ticks) readonly_world)) = 1%nat
  /\ returns (tick "T" "A" two_chapters 600 (PyInt 0) "/tmp/mpv-socket" 1000
                   (Event 1000.5 (ord "x")))
             quiet_world tt.
Proof.
  pose proof (save_failure_leaves_the_loop
                "T" "A" two_chapters 600 (PyInt 0) "/tmp/mpv-socket" 1000
                (Event 1000.5 (ord "x")) [Event 1001.5 (ord "x")]) as H.
  destruct (H readonly_world 0.5%float 0%Z eq_refl eq_refl eq_refl eq_refl)
    as (_ & Hfail & _).
  destruct (H quiet_world 0.5%float 0%Z eq_refl eq_refl eq_refl eq_refl)
    as (_ & _ & Hok).
  destruct (Hfail PermissionError eq_refl) as [Hraise Hlen].
  destruct (Hok eq_refl) as [Hret _].
  split; [exact Hraise | split; [exact Hlen | exact Hret]].
Defined.

(** C3 as stated fails on the program: with a position file that cannot be
    written, the first periodic save raises [PermissionError] out of
    [save_playback_position] and out of the loop; of the two iterations the
    environment offered only the first showed its frame, where the same
    events with a writable file run both. *)
Lemma periodic_save_counterexample :
  raises (save_playback_position (PyFloat 0.5)) readonly_world PermissionError
  /\ raises (demo_loop two_ticks) readonly_world PermissionError
  /\ List.length (frames (after (demo_loop two_ticks) readonly_world)) = 1%nat
  /\ returns (demo_loop two_ticks) quiet_world tt
  /\ List.length (frames (after (demo_loop two_ticks) quiet_world)) = 2%nat.
Proof. repeat split. Qed.

Lemma display_info_shows title author current_time time_left chapter_time
      current_chapter w :
  display_info title author current_time time_left chapter_time current_chapter w
  = (Return tt,
     set_frames (frames w ++ [shown_frame title author current_time time_left
                                          chapter_time current_chapter])
       (set_window (shown_frame title author current_time time_left chapter_time
                                current_chapter) w)).
Proof. reflexivity. Qed.

(** One iteration whose elapsed time computes, in full: the world [w3] in
    which it ends has the frame of the iteration as its last frame, and the
    result is decided by the key, by [int], by the five-second mark and by
    the position file, in that order. *)
Lemma tick_run title author chapters chapter_time playback_position ipc_socket
      start_time ev w current_time :
  float_add (ev_now ev - start_time)%float playback_position = Return current_time ->
  exists w3,
    frames w3
    = frames w ++ [tick_frame title author chapters chapter_time current_time]
    /\ window w3 = tick_frame title author chapters chapter_time current_time
    /\ pkl_contents w3 = pkl_contents w
    /\ pkl_read_fault w3 = pkl_read_fault w
    /\ pkl_write_fault w3 = pkl_write_fault w
    /\ (~ In (ev_key ev) mapped_keys ->
        forall path, channels w3 path = channels w path)
    /\ tick title author chapters chapter_time playback_position ipc_socket
            start_time ev w
       = if valid_code (ev_key ev) then
           match int_of_float current_time with
           | Raise e => (Raise e, w3)
           | Return seconds =>
               if (seconds mod 5 =? 0)%Z then
                 match pkl_write_fault w with
                 | Some e => (Raise e, w3)
                 | None =>
                     (Return tt,
                      set_pkl_contents (Some (Pickled (PyFloat current_time))) w3)
                 end
               else (Return tt, w3)
           end
         else (Raise ValueError, w3).
Proof.
  intros Hadd. unfold tick.
  unfold bind at 1, lift. rewrite Hadd.
  destruct (get_current_chapter_run current_time chapters w) as (entries & Hg).
  fold (located current_time chapters) in Hg.
  unfold bind at 1. rewrite Hg.
  unfold bind at 1. rewrite display_info_shows.
  fold (tick_frame title author chapters chapter_time current_time).
  set (w2 := set_frames _ _).
  destruct (valid_code (ev_key ev)) eqn:Hkey.
  - destruct (handle_playback_controls_harmless
                ipc_socket (ev_key ev) current_time chapters Hkey w2)
      as [Hf (H1 & H2 & H3 & H4 & H5)].
    destruct (handle_playback_controls ipc_socket (ev_key ev) current_time
                                       chapters w2) as [o w3] eqn:Hh.
    cbn [fst snd] in Hf, H1, H2, H3, H4, H5. subst o.
    exists w3. unfold bind at 1. rewrite Hh.
    split; [rewrite <- H5; reflexivity |].
    split; [rewrite <- H4; reflexivity |].
    split; [rewrite <- H1; reflexivity |].
    split; [rewrite <- H2; reflexivity |].
    split; [rewrite <- H3; reflexivity |].
    split.
    + intros Hun path. rewrite (handle_unmapped _ _ _ _ _ Hun), Hkey in Hh.
      injection Hh as <-. reflexivity.
    + unfold bind at 1, lift.
      destruct (int_of_float current_time) as [seconds | e]; [| reflexivity].
      unfold bind. destruct (seconds mod 5 =? 0)%Z; [| reflexivity].
      rewrite save_playback_position_run, <- H3.
      change (pkl_write_fault w2) with (pkl_write_fault w).
      destruct (pkl_write_fault w); reflexivity.
  - exists w2. unfold bind at 1.
    rewrite (handle_playback_controls_invalid _ _ _ _ _ Hkey).
    repeat split.
Qed.

(** When the elapsed time does not compute ([float + str], or an int too
    large for a float), the iteration raises at once. *)
Lemma tick_no_elapsed_time title author chapters chapter_time playback_position
      ipc_socket start_time ev w e :
  float_add (ev_now ev - start_time)%float playback_position = Raise e ->
  tick title author chapters chapter_time playback_position ipc_socket
       start_time ev w = (Raise e, w).
Proof. intros H. unfold tick, bind at 1, lift. rewrite H. reflexivity. Qed.

(** A run of the loop in which every elapsed time computes, every key is
    a code point and [int] accepts every elapsed time, with a position file
    that can be written: each iteration returns and shows its frame,
    whatever is behind the IPC path. *)
Lemma healthy_loop_runs title author chapters chapter_time playback_position
      ipc_socket start_time events times :
  Forall2 (fun ev current_time =>
             float_add (ev_now ev - start_time)%float playback_position
             = Return current_time
             /\ valid_code (ev_key ev) = true
             /\ exists seconds, int_of_float current_time = Return seconds)
          events times ->
  forall w,
    pkl_write_fault w = None ->
    fst (while_true (tick title author chapters chapter_time playback_position
                          ipc_socket start_time) events w) = Return tt
    /\ frames (snd (while_true (tick title author chapters chapter_time
                                     playback_position ipc_socket start_time)
                               events w))
       = frames w ++ map (tick_frame title author chapters chapter_time) times.
Proof.
  induction 1 as [| ev current_time events times (Hadd & Hkey & seconds & Hint) _ IH];
    intros w Hw.
  - cbn. rewrite app_nil_r. split; reflexivity.
  - cbn [while_true map].
    destruct (tick_run title author chapters chapter_time playback_position
                       ipc_socket start_time ev w current_time Hadd)
      as (w3 & Hframes & _ & _ & _ & Hw3 & _ & Htick).
    rewrite Hkey, Hint, Hw in Htick. unfold bind. rewrite Htick.
    destruct (seconds mod 5 =? 0)%Z.
    + destruct (IH (set_pkl_contents (Some (Pickled (PyFloat current_time))) w3))
        as [Hret Hshown]; [cbn; rewrite Hw3; exact Hw |].
      rewrite Hret, Hshown. cbn [frames set_pkl_contents].
      rewrite Hframes, <- app_assoc. split; reflexivity.
    + destruct (IH w3) as [Hret Hshown]; [rewrite Hw3; exact Hw |].
      rewrite Hret, Hshown, Hframes, <- app_assoc. split; reflexivity.
Qed.

(** C7.  [send_ipc_command] never raises: whatever is behind the IPC path,
    it returns.  When the write fails with [e], the error is logged after
    the debug entry and nothing else changes.  Handling a key that is a code
    point returns whether or not its sends failed; two runs of the loop
    over the same events from worlds that differ only behind the IPC paths
    and in the log (one where sends fail, one where they are delivered)
    end alike and show the same frames and leave the same position file;
    and the iterations go on computing and publishing: over any events whose
    elapsed times compute, whose keys are code points and whose elapsed
    times [int] accepts, with a position file that can be written, the loop
    returns and has shown, after the frames already there, the frame of
    every iteration in turn, each with the elapsed time, the time left and
    the chapter title of that iteration, also when every send failed. *)
Theorem send_failure_is_absorbed (ipc_socket : string) (command : text)
        (w : world) :
  returns (send_ipc_command ipc_socket command) w tt
  /\ (forall e,
        channels w ipc_socket = Failing e ->
        debug_log (after (send_ipc_command ipc_socket command) w)
        = debug_log w
          ++ [(DEBUG, Lit "Sending command to mpv: " :: command);
              (ERROR, [Lit "Error sending command to mpv: "; ExnRepr e])]
        /\ (forall path,
              channels (after (send_ipc_command ipc_socket command) w) path
              = channels w path)
        /\ same_session w (after (send_ipc_command ipc_socket command) w))
  /\ (forall key t chapters,
        valid_code key = true ->
        returns (handle_playback_controls ipc_socket key t chapters) w tt)
  /\ (forall title author chapters chapter_time playback_position start_time
             events w',
        same_session w w' ->
        let loop :=
          while_true (tick title author chapters chapter_time playback_position
                           ipc_socket start_time) events in
        fst (loop w) = fst (loop w')
        /\ same_session (after loop w) (after loop w'))
  /\ (forall title author chapters chapter_time playback_position start_time
             events times,
        pkl_write_fault w = None ->
        Forall2 (fun ev current_time =>
                   float_add (ev_now ev - start_time)%float playback_position
                   = Return current_time
                   /\ valid_code (ev_key ev) = true
                   /\ exists seconds, int_of_float current_time = Return seconds)
                events times ->
        let loop :=
          while_true (tick title author chapters chapter_time playback_position
                           ipc_socket start_time) events in
        returns loop w tt
        /\ frames (after loop w)
           = frames w ++ map (tick_frame title author chapters chapter_time) times).
Proof.
  split; [apply send_ipc_command_returns | split; [| split; [| split]]].
  - intros e He. unfold after. rewrite (send_ipc_command_failing _ _ _ _ He).
    repeat split.
  - intros key t chapters Hkey.
    apply (handle_playback_controls_harmless ipc_socket key t chapters Hkey w).
  - intros title author chapters chapter_time playback_position start_time
           events w' Hs loop.
    apply respects_while_true; [| exact Hs].
    intros ev. apply respects_tick.
  - intros title author chapters chapter_time playback_position start_time
           events times Hw Hev loop.
    exact (healthy_loop_runs title author chapters chapter_time playback_position
                             ipc_socket start_time events times Hev w Hw).
Qed.

Lemma send_failure_is_absorbed_witness :
  debug_log (after (send_ipc_command "/tmp/mpv-socket" [Lit "cycle pause"])
                   deaf_world)
  = [(DEBUG, [Lit "Sending command to mpv: "; Lit "cycle pause"]);
     (ERROR, [Lit "Error sending command to mpv: "; ExnRepr BrokenPipeError])]
  /\ returns (handle_playback_controls "/tmp/mpv-socket" (ord "p") 50 two_chapters)
             deaf_world tt
  /\ fst (demo_loop pause_then_idle deaf_world)
     = fst (demo_loop pause_then_idle quiet_world)
  /\ same_session (after (demo_loop pause_then_idle) deaf_world)
                  (after (demo_loop pause_then_idle) quiet_world)
  /\ returns (demo_loop pause_then_idle) deaf_world tt
  /\ frames (after (demo_loop pause_then_idle) deaf_world)
     = [tick_frame "T" "A" two_chapters 600 1.5;
        tick_frame "T" "A" two_chapters 600 2.5].
Proof.
  destruct (send_failure_is_absorbed "/tmp/mpv-socket" [Lit "cycle pause"]
                                     deaf_world)
    as (_ & Hlog & Hkey & Hloop & Hruns).
  destruct (Hlog BrokenPipeError eq_refl) as (Hentries & _).
  assert (Hev : Forall2
                  (fun ev current_time =>
                     float_add (ev_now ev - 1000)%float (PyInt 0)
                     = Return current_time
                     /\ valid_code (ev_key ev) = true
                     /\ exists seconds, int_of_float current_time = Return seconds)
                  pause_then_idle [1.5%float; 2.5%float]).
  { constructor; [| constructor; [| constructor]].
    - split; [reflexivity | split; [reflexivity | exists 1%Z; reflexivity]].
    - split; [reflexivity | split; [reflexivity | exists 2%Z; reflexivity]]. }
  destruct (Hruns "T"%string "A"%string two_chapters 600%float (PyInt 0)
                  1000%float pause_then_idle [1.5%float; 2.5%float] eq_refl Hev)
    as (Hret & Hframes).
  split; [exact Hentries |].
  split; [exact (Hkey (ord "p") 50%float two_chapters eq_refl) |].
  split; [| split; [| split; [exact Hret | exact Hframes]]].
  - apply (Hloop "T"%string "A"%string two_chapters 600%float (PyInt 0) 1000%float
                 pause_then_idle quiet_world).
    repeat split.
  - apply (Hloop "T"%string "A"%string two_chapters 600%float (PyInt 0) 1000%float
                 pause_then_idle quiet_world).
    repeat split.
Defined.

(** The scenario of the specification: with a receiver that is gone, an
    iteration in which 'p' is pressed and the one after it both return and
    both show their frame. *)
Example failed_send_scenario :
  returns (demo_loop pause_then_idle) deaf_world tt
  /\ List.length (frames (after (demo_loop pause_then_idle) deaf_world)) = 2%nat
  /\ channels (after (demo_loop pause_then_idle) deaf_world) "/tmp/mpv-socket"
     = Failing BrokenPipeError.
Proof. repeat split. Qed.

(** The scenario of pressing 'n' then 'm' at an elapsed time of 50 seconds:
    both targets are computed from the 50 passed in. *)
Example next_then_previous_scenario :
  channels
    (after (handle_playback_controls "/tmp/mpv-socket" (ord "n") 50 two_chapters ;;
            handle_playback_controls "/tmp/mpv-socket" (ord "m") 50 two_chapters)
           quiet_world)
    "/tmp/mpv-socket"
  = Listening [line [Lit "seek "; FloatRepr 300; Lit " absolute"];
               line [Lit "seek "; FloatRepr 0; Lit " absolute"]].
Proof. reflexivity. Qed.

(** * Further properties *)

(** ** Metadata provider *)

Lemma chapters_loop_step py c rest chapter_info w :
  Metadata.chapters_loop py (c :: rest) chapter_info w
  = match Metadata.convert py c with
    | inl e => (inl e, w)
    | inr entry => Metadata.chapters_loop py rest (chapter_info ++ [entry]) w
    end.
Proof.
  cbn [Metadata.chapters_loop]. unfold Metadata.convert, Metadata.bind,
    Metadata.item, Metadata.float_of, Metadata.ret, Metadata.raise.
  destruct (pc_start_time c) as [s |]; [| reflexivity].
  destruct (float_of_str py s); [| reflexivity].
  destruct (pc_end_time c) as [e |]; [| reflexivity].
  destruct (float_of_str py e); [| reflexivity].
  destruct (pc_tags c); reflexivity.
Qed.

(** The loop appends one entry per chapter dict, in order, and changes
    nothing in the world. *)
Lemma chapters_loop_ok py chapters :
  forall values chapter_info w,
    map (Metadata.convert py) chapters = map inr values ->
    Metadata.chapters_loop py chapters chapter_info w
    = (inr (chapter_info ++ values), w).
Proof.
  induction chapters as [| c rest IH]; intros [| v values] info w H;
    try discriminate H.
  - cbn. rewrite app_nil_r. reflexivity.
  - cbn [map] in H. injection H as Hc Hrest.
    rewrite chapters_loop_step, Hc, (IH values _ w Hrest), <- app_assoc.
    reflexivity.
Qed.

(** The loop stops at the first chapter dict whose conversion raises. *)
Lemma chapters_loop_fail py before c rest e :
  forall values chapter_info w,
    map (Metadata.convert py) before = map inr values ->
    Metadata.convert py c = inl e ->
    Metadata.chapters_loop py (before ++ c :: rest) chapter_info w = (inl e, w).
Proof.
  induction before as [| b before IH]; intros [| v values] info w H Hc;
    try discriminate H.
  - cbn [app]. rewrite chapters_loop_step, Hc. reflexivity.
  - cbn [map] in H. injection H as Hb Hrest.
    cbn [app]. rewrite chapters_loop_step, Hb. exact (IH values _ w Hrest Hc).
Qed.

Lemma get_metadata_run py metadata w :
  Metadata.get_metadata py metadata w
  = let w2 := logged (json_dumps py metadata) (logged [Lit "Full metadata:"] w) in
    match pr_format metadata with
    | None => (inl (Metadata.KeyError "format"), w2)
    | Some format =>
        match pf_tags format with
        | None => (inl (Metadata.KeyError "tags"), w2)
        | Some t =>
            match Metadata.chapters_loop py (Metadata.chapters_of metadata) [] w2 with
            | (inl e, w3) => (inl e, w3)
            | (inr chapter_info, w3) =>
                (inr (Metadata.get t "title" "Unknown Title",
                      Metadata.get t "artist" "Unknown Author", chapter_info),
                 logged (Lit "Chapters: " :: str_chapter_info py chapter_info)
                   (logged [Lit "Author: ";
                            Lit (Metadata.get t "artist" "Unknown Author")]
                      (logged [Lit "Title: ";
                               Lit (Metadata.get t "title" "Unknown Title")] w3)))
            end
        end
    end.
Proof.
  unfold Metadata.get_metadata, Metadata.chapters_of.
  destruct metadata as [[[[t |] duration] |] chapters]; reflexivity.
Qed.

Lemma get_absent (d : tags) key default :
  (forall v, ~ In (key, v) d) -> Metadata.get d key default = default.
Proof.
  induction d as [| [k v] d IH]; intros H; cbn; [reflexivity |].
  destruct (String.eqb k key) eqn:Hk.
  - apply String.eqb_eq in Hk. subst k. exfalso. apply (H v). left. reflexivity.
  - apply IH. intros v' Hin. apply (H v'). right. exact Hin.
Qed.

Lemma get_present (d : tags) key v default :
  NoDup (map fst d) -> In (key, v) d -> Metadata.get d key default = v.
Proof.
  induction d as [| [k v'] d IH]; intros Hnd Hin; [destruct Hin |].
  cbn in Hnd. inversion Hnd as [| ? ? Hk Hnd']; subst. cbn.
  destruct Hin as [Heq | Hin].
  - injection Heq as -> ->. rewrite String.eqb_refl. reflexivity.
  - destruct (String.eqb k key) eqn:Hkey.
    + apply String.eqb_eq in Hkey. subst k. exfalso. apply Hk.
      apply (in_map fst) in Hin. exact Hin.
    + apply IH; assumption.
Qed.

(** X1.  When the format has tags and every chapter dict has its
    start_time, end_time and tags, with times that [float] accepts,
    [get_metadata] returns the title and artist tags and one chapter per
    chapter dict, in the order of the answer: it neither sorts nor drops
    chapters.  It logs five entries and touches nothing else. *)
Theorem get_metadata_keeps_order (py : builtins) (metadata : probe)
        (format : probe_format) (t : tags) (values : list chapter) (w : world) :
  pr_format metadata = Some format ->
  pf_tags format = Some t ->
  map (Metadata.convert py) (Metadata.chapters_of metadata) = map inr values ->
  let w' := snd (Metadata.get_metadata py metadata w) in
  fst (Metadata.get_metadata py metadata w)
  = inr (Metadata.get t "title" "Unknown Title",
         Metadata.get t "artist" "Unknown Author", values)
  /\ List.length values = List.length (Metadata.chapters_of metadata)
  /\ (forall i c, nth_error (Metadata.chapters_of metadata) i = Some c ->
        option_map inr (nth_error values i) = Some (Metadata.convert py c))
  /\ List.length (debug_log w') = (List.length (debug_log w) + 5)%nat
  /\ same_session w w'
  /\ (forall path, channels w' path = channels w path).
Proof.
  intros Hf Ht Hc w'. subst w'. rewrite get_metadata_run, Hf, Ht. cbv zeta.
  rewrite (chapters_loop_ok py _ values [] _ Hc). cbn [fst snd app].
  split; [reflexivity | split; [| split; [| split; [| split]]]].
  - rewrite <- (length_map (@inr Metadata.exn chapter) values), <- Hc, length_map.
    reflexivity.
  - intros i c Hi. rewrite <- (nth_error_map (@inr Metadata.exn chapter)), <- Hc, nth_error_map, Hi.
    reflexivity.
  - cbn. rewrite !length_app. cbn. lia.
  - repeat split.
  - reflexivity.
Qed.

Lemma get_metadata_keeps_order_witness :
  fst (Metadata.get_metadata demo_builtins demo_probe quiet_world)
  = inr ("The Book"%string, "Unknown Author"%string,
         [Chapter 0 300 "Ch1"; Chapter 300 600 "Unknown Chapter"]).
Proof.
  destruct (get_metadata_keeps_order
              demo_builtins demo_probe
              (ProbeFormat (Some [("title"%string, "The Book"%string)])
                           (Some "600.000000"%string))
              [("title"%string, "The Book"%string)]
              [Chapter 0 300 "Ch1"; Chapter 300 600 "Unknown Chapter"]
              quiet_world eq_refl eq_refl eq_refl)
    as (H & _).
  exact H.
Defined.

(** X2.  The defaults of [get_metadata]: a format whose tags have no
    'title' gives "Unknown Title", no 'artist' gives "Unknown Author", and a
    chapter whose tags have no 'title' is named "Unknown Chapter" (the
    string the lookup also returns on a miss); a tag that is present is
    returned as it is. *)
Theorem get_metadata_defaults (py : builtins) (metadata : probe)
        (format : probe_format) (t : tags) (values : list chapter) (w : world) :
  pr_format metadata = Some format ->
  pf_tags format = Some t ->
  map (Metadata.convert py) (Metadata.chapters_of metadata) = map inr values ->
  ((forall v, ~ In ("title"%string, v) t) ->
   exists author,
     fst (Metadata.get_metadata py metadata w)
     = inr ("Unknown Title"%string, author, values))
  /\ ((forall v, ~ In ("artist"%string, v) t) ->
      exists title,
        fst (Metadata.get_metadata py metadata w)
        = inr (title, "Unknown Author"%string, values))
  /\ (forall v v', NoDup (map fst t) ->
        In ("title"%string, v) t -> In ("artist"%string, v') t ->
        fst (Metadata.get_metadata py metadata w) = inr (v, v', values))
  /\ (forall i c s e ct,
        nth_error (Metadata.chapters_of metadata) i = Some c ->
        pc_start_time c = Some s -> pc_end_time c = Some e ->
        pc_tags c = Some ct ->
        (forall v, ~ In ("title"%string, v) ct) ->
        option_map title (nth_error values i) = Some "Unknown Chapter"%string).
Proof.
  intros Hf Ht Hc. rewrite get_metadata_run, Hf, Ht. cbv zeta.
  rewrite (chapters_loop_ok py _ values [] _ Hc). cbn [fst snd app].
  split; [| split; [| split]].
  - intros Hno. rewrite (get_absent _ _ _ Hno). eexists. reflexivity.
  - intros Hno. rewrite (get_absent t "artist" _ Hno). eexists. reflexivity.
  - intros v v' Hnd Hv Hv'.
    rewrite (get_present _ _ _ _ Hnd Hv), (get_present _ _ _ _ Hnd Hv').
    reflexivity.
  - intros i c s e ct Hi Hs He Hct Hno.
    assert (Hconv : option_map inr (nth_error values i)
                    = Some (Metadata.convert py c)).
    { rewrite <- (nth_error_map (@inr Metadata.exn chapter)), <- Hc, nth_error_map, Hi. reflexivity. }
    unfold Metadata.convert in Hconv. rewrite Hs, He, Hct in Hconv.
    destruct (nth_error values i) as [entry |]; [| discriminate Hconv].
    cbn in Hconv. cbn.
    destruct (float_of_str py s); [| discriminate Hconv].
    destruct (float_of_str py e); [| discriminate Hconv].
    injection Hconv as ->. cbn. rewrite (get_absent _ _ _ Hno). reflexivity.
Qed.

Lemma get_metadata_defaults_witness :
  (exists title,
      fst (Metadata.get_metadata demo_builtins demo_probe quiet_world)
      = inr (title, "Unknown Author"%string,
             [Chapter 0 300 "Ch1"; Chapter 300 600 "Unknown Chapter"]))
  /\ option_map title
       (nth_error [Chapter 0 300 "Ch1"; Chapter 300 600 "Unknown Chapter"] 1)
     = Some "Unknown Chapter"%string.
Proof.
  destruct (get_metadata_defaults
              demo_builtins demo_probe
              (ProbeFormat (Some [("title"%string, "The Book"%string)])
                           (Some "600.000000"%string))
              [("title"%string, "The Book"%string)]
              [Chapter 0 300 "Ch1"; Chapter 300 600 "Unknown Chapter"]
              quiet_world eq_refl eq_refl eq_refl)
    as (_ & Hartist & _ & Hchapter).
  split.
  - apply Hartist. intros v [H | []]. discriminate H.
  - apply (Hchapter 1%nat
             (ProbeChapter (Some "300.000000"%string) (Some "600.000000"%string)
                           (Some []))
             "300.000000"%string "600.000000"%string []); try reflexivity.
    intros v [].
Defined.

Lemma chapters_loop_world py chapters :
  forall chapter_info w,
    snd (Metadata.chapters_loop py chapters chapter_info w) = w.
Proof.
  induction chapters as [| c rest IH]; intros info w; [reflexivity |].
  rewrite chapters_loop_step. destruct (Metadata.convert py c); [reflexivity |].
  apply IH.
Qed.

(** [get_metadata] only writes to the log. *)
Lemma get_metadata_world py metadata w :
  exists entries,
    snd (Metadata.get_metadata py metadata w)
    = set_debug_log (debug_log w ++ entries) w.
Proof.
  rewrite get_metadata_run. cbv zeta.
  assert (Hlog : forall m1 m2 w0,
             logged m2 (logged m1 w0)
             = set_debug_log (debug_log w0 ++ [(DEBUG, m1); (DEBUG, m2)]) w0).
  { intros. unfold logged. cbn. rewrite <- app_assoc. reflexivity. }
  destruct (pr_format metadata) as [format |];
    [| eexists; cbn [snd]; apply Hlog].
  destruct (pf_tags format) as [t |];
    [| eexists; cbn [snd]; apply Hlog].
  match goal with
  | |- context [Metadata.chapters_loop ?p ?l ?a ?w0] =>
      pose proof (chapters_loop_world p l a w0) as Hw;
      destruct (Metadata.chapters_loop p l a w0) as [[e | info] w3]
  end; cbn in Hw; subst w3; cbn [snd].
  - eexists. apply Hlog.
  - eexists. unfold logged. cbn. rewrite <- !app_assoc. cbn. reflexivity.
Qed.

(** X3.  [get_metadata] indexes [metadata['format']['tags']] without a
    default: an answer without 'format', or whose format has no 'tags',
    raises [KeyError] whatever its chapters are, after the two log entries
    of the full metadata and before anything is extracted. *)
Theorem get_metadata_needs_tags (py : builtins) (metadata : probe) (w : world) :
  let r := Metadata.get_metadata py metadata w in
  (pr_format metadata = None ->
   fst r = inl (Metadata.KeyError "format")
   /\ debug_log (snd r)
      = debug_log w ++ [(DEBUG, [Lit "Full metadata:"]);
                        (DEBUG, json_dumps py metadata)])
  /\ (forall format,
        pr_format metadata = Some format -> pf_tags format = None ->
        fst r = inl (Metadata.KeyError "tags")
        /\ debug_log (snd r)
           = debug_log w ++ [(DEBUG, [Lit "Full metadata:"]);
                             (DEBUG, json_dumps py metadata)]).
Proof.
  cbv zeta. rewrite get_metadata_run. cbv zeta. split.
  - intros ->. unfold logged. cbn. rewrite <- app_assoc. split; reflexivity.
  - intros format -> ->. unfold logged. cbn. rewrite <- app_assoc.
    split; reflexivity.
Qed.

Lemma get_metadata_needs_tags_witness :
  fst (Metadata.get_metadata demo_builtins untagged_probe quiet_world)
  = inl (Metadata.KeyError "tags").
Proof.
  destruct (get_metadata_needs_tags demo_builtins untagged_probe quiet_world)
    as (_ & H).
  destruct (H (ProbeFormat None (Some "600.000000"%string)) eq_refl eq_refl)
    as (Hr & _).
  exact Hr.
Defined.

(** X4.  The chapter list is all or nothing: at the first chapter dict, in
    the order of the answer, that lacks 'start_time', 'end_time' or 'tags'
    or whose time [float] rejects, [get_metadata] raises the matching
    [KeyError] or [ValueError] and returns no chapter at all.  In
    particular a chapter dict without 'tags' is a [KeyError], although a
    missing title inside its tags would have been defaulted. *)
Theorem get_metadata_all_or_nothing (py : builtins) (metadata : probe)
        (format : probe_format) (t : tags)
        (before : list probe_chapter) (c : probe_chapter)
        (rest : list probe_chapter) (values : list chapter) (w : world) :
  pr_format metadata = Some format ->
  pf_tags format = Some t ->
  Metadata.chapters_of metadata = before ++ c :: rest ->
  map (Metadata.convert py) before = map inr values ->
  let r := fst (Metadata.get_metadata py metadata w) in
  (pc_start_time c = None -> r = inl (Metadata.KeyError "start_time"))
  /\ (forall s,
        pc_start_time c = Some s -> float_of_str py s = None ->
        r = inl (Metadata.ValueError s))
  /\ (forall s x,
        pc_start_time c = Some s -> float_of_str py s = Some x ->
        pc_end_time c = None ->
        r = inl (Metadata.KeyError "end_time"))
  /\ (forall s x e,
        pc_start_time c = Some s -> float_of_str py s = Some x ->
        pc_end_time c = Some e -> float_of_str py e = None ->
        r = inl (Metadata.ValueError e))
  /\ (forall s x e y,
        pc_start_time c = Some s -> float_of_str py s = Some x ->
        pc_end_time c = Some e -> float_of_str py e = Some y ->
        pc_tags c = None ->
        r = inl (Metadata.KeyError "tags")).
Proof.
  intros Hf Ht Hchapters Hbefore r. subst r.
  assert (Hfail : forall e,
             Metadata.convert py c = inl e ->
             fst (Metadata.get_metadata py metadata w) = inl e).
  { intros e He. rewrite get_metadata_run, Hf, Ht, Hchapters. cbv zeta.
    rewrite (chapters_loop_fail py before c rest e values [] _ Hbefore He).
    reflexivity. }
  repeat split; intros; apply Hfail; unfold Metadata.convert;
    repeat match goal with H : _ = _ |- _ => rewrite H end; reflexivity.
Qed.

Lemma get_metadata_all_or_nothing_witness :
  fst (Metadata.get_metadata
         demo_builtins
         (Probe (pr_format demo_probe)
                (Some [ProbeChapter (Some "0.000000"%string)
                                    (Some "300.000000"%string)
                                    (Some [("title"%string, "Ch1"%string)]);
                       ProbeChapter (Some "300.000000"%string)
                                    (Some "600.000000"%string) None]))
         quiet_world)
  = inl (Metadata.KeyError "tags").
Proof.
  destruct (get_metadata_all_or_nothing
              demo_builtins
              (Probe (pr_format demo_probe)
                     (Some [ProbeChapter (Some "0.000000"%string)
                                         (Some "300.000000"%string)
                                         (Some [("title"%string, "Ch1"%string)]);
                            ProbeChapter (Some "300.000000"%string)
                                         (Some "600.000000"%string) None]))
              (ProbeFormat (Some [("title"%string, "The Book"%string)])
                           (Some "600.000000"%string))
              [("title"%string, "The Book"%string)]
              [ProbeChapter (Some "0.000000"%string) (Some "300.000000"%string)
                            (Some [("title"%string, "Ch1"%string)])]
              (ProbeChapter (Some "300.000000"%string) (Some "600.000000"%string)
                            None)
              [] [Chapter 0 300 "Ch1"] quiet_world
              eq_refl eq_refl eq_refl eq_refl)
    as (_ & _ & _ & _ & H).
  exact (H "300.000000"%string 300%float "600.000000"%string 600%float
           eq_refl eq_refl eq_refl eq_refl eq_refl).
Defined.

(** X5.  A failure of the metadata step is fatal for the session and
    happens before anything else: when [get_metadata] raises, or when the
    second probe has no duration that [float] accepts,
    [play_audiobook_from_probe] raises the same exception and the position
    file, the screen and every IPC path are as they were; only the log has
    grown. *)
Theorem metadata_failure_is_fatal (py : builtins) (metadata answer : probe)
        (start_time : float) (events : list event) (w : world) :
  let session :=
    Metadata.play_audiobook_from_probe py metadata answer start_time events w in
  (forall e,
      fst (Metadata.get_metadata py metadata w) = inl e ->
      fst session = inl e
      /\ same_session w (snd session)
      /\ (forall path, channels (snd session) path = channels w path))
  /\ (forall r e,
        fst (Metadata.get_metadata py metadata w) = inr r ->
        fst (Metadata.get_duration py answer
               (snd (Metadata.get_metadata py metadata w))) = inl e ->
        fst session = inl e
        /\ same_session w (snd session)
        /\ (forall path, channels (snd session) path = channels w path)).
Proof.
  cbv zeta.
  destruct (get_metadata_world py metadata w) as (entries & Hw).
  destruct (Metadata.get_metadata py metadata w)
    as [[e0 | [[title author] chapters]] w1] eqn:Hget.
  all: cbn [fst snd] in *; subst w1.
  - assert (Hsession : Metadata.play_audiobook_from_probe
                         py metadata answer start_time events w
                       = (inl e0, set_debug_log (debug_log w ++ entries) w)).
    { unfold Metadata.play_audiobook_from_probe, Metadata.bind at 1.
      rewrite Hget. reflexivity. }
    rewrite Hsession. cbn [fst snd].
    split; [| intros r e H; discriminate H].
    intros e H. injection H as ->. repeat split.
  - split; [intros e H; discriminate H |].
    intros r e _ He.
    assert (Hd : snd (Metadata.get_duration py answer
                        (set_debug_log (debug_log w ++ entries) w))
                 = set_debug_log (debug_log w ++ entries) w).
    { unfold Metadata.get_duration, Metadata.bind, Metadata.item,
        Metadata.float_of.
      destruct (pr_format answer) as [format |]; [| reflexivity].
      cbn. destruct (pf_duration format) as [d |]; [| reflexivity].
      cbn. destruct (float_of_str py d); reflexivity. }
    destruct (Metadata.get_duration py answer _) as [[e1 | x] w2] eqn:Hdur.
    all: cbn [fst snd] in *; subst w2.
    + injection He as ->.
      assert (Hsession : Metadata.play_audiobook_from_probe
                           py metadata answer start_time events w
                         = (inl e, set_debug_log (debug_log w ++ entries) w)).
      { unfold Metadata.play_audiobook_from_probe, Metadata.bind at 1.
        rewrite Hget. unfold Metadata.bind at 1. rewrite Hdur. reflexivity. }
      rewrite Hsession. repeat split.
    + discriminate He.
Qed.

Lemma metadata_failure_is_fatal_witness :
  fst (Metadata.play_audiobook_from_probe demo_builtins untagged_probe
         untagged_probe 1000 two_ticks quiet_world)
  = inl (Metadata.KeyError "tags")
  /\ frames (snd (Metadata.play_audiobook_from_probe demo_builtins untagged_probe
                    untagged_probe 1000 two_ticks quiet_world))
     = frames quiet_world.
Proof.
  destruct (metadata_failure_is_fatal demo_builtins untagged_probe untagged_probe
              1000 two_ticks quiet_world) as (H & _).
  destruct (H (Metadata.KeyError "tags") eq_refl) as (Hr & Hs & _).
  split; [exact Hr |].
  destruct Hs as (_ & _ & _ & _ & Hframes). symmetry. exact Hframes.
Defined.

(** ** ChapterIndex *)

Lemma sorted_by_start_cross l1 l2 a b :
  sorted_by_start (l1 ++ l2) = true -> In a l1 -> In b l2 ->
  (start_time a <=? start_time b)%float = true.
Proof.
  induction l1 as [| x l1 IH]; intros Hs Ha Hb; [destruct Ha |].
  cbn in Hs. apply andb_true_iff in Hs. destruct Hs as [Hall Hrest].
  destruct Ha as [-> | Ha].
  - rewrite forallb_forall in Hall. apply Hall, in_or_app. right. exact Hb.
  - exact (IH Hrest Ha Hb).
Qed.

Lemma find_none_of_Forall {A} (p : A -> bool) l :
  Forall (fun x => p x = false) l -> find p l = None.
Proof.
  induction 1 as [| a l Ha _ IH]; cbn; [reflexivity |]. rewrite Ha. exact IH.
Qed.

(** X6.  On a table sorted by start, [get_previous_chapter_time] returns
    the largest chapter start strictly below [t]: the result is below [t],
    is the start of a chapter of the table, and every chapter that starts
    strictly before [t] starts no later than it.  (At a time equal to a
    chapter's start that chapter does not count: the result is the start of
    an earlier one.) *)
Theorem get_previous_chapter_time_largest (t : float) (chapters : list chapter)
        (c : chapter) :
  sorted_by_start chapters = true ->
  In c chapters ->
  (start_time c <? t)%float = true ->
  (get_previous_chapter_time t chapters <? t)%float = true
  /\ (start_time c <=? get_previous_chapter_time t chapters)%float = true
  /\ exists d, In d chapters /\ get_previous_chapter_time t chapters = start_time d.
Proof.
  intros Hsorted Hin Hc. unfold get_previous_chapter_time.
  rewrite scan_previous_find.
  pose proof (find_first (fun c => (start_time c <? t)%float) (rev chapters))
    as Hfind.
  destruct (find _ (rev chapters)) as [d |].
  - destruct Hfind as (later & earlier & Heq & Hlater & Hd).
    assert (Hchapters : chapters = rev earlier ++ d :: rev later).
    { rewrite <- (rev_involutive chapters), Heq, rev_app_distr. cbn.
      rewrite <- app_assoc. reflexivity. }
    split; [exact Hd | split].
    + rewrite Hchapters in Hin, Hsorted.
      apply in_app_or in Hin. destruct Hin as [Hin | [<- | Hin]].
      * exact (sorted_by_start_cross _ _ _ _ Hsorted Hin (or_introl eq_refl)).
      * exact (ltb_leb_refl _ _ Hc).
      * exfalso. rewrite Forall_forall in Hlater.
        rewrite (Hlater c) in Hc; [discriminate Hc |].
        apply in_rev. exact Hin.
    + exists d. split; [| reflexivity].
      rewrite Hchapters. apply in_or_app. right. left. reflexivity.
  - exfalso. rewrite Forall_forall in Hfind.
    rewrite (Hfind c) in Hc; [discriminate Hc |].
    apply in_rev in Hin. exact Hin.
Qed.

Lemma get_previous_chapter_time_largest_witness :
  (get_previous_chapter_time 400 two_chapters <? 400)%float = true
  /\ (300 <=? get_previous_chapter_time 400 two_chapters)%float = true.
Proof.
  destruct (get_previous_chapter_time_largest
              400 two_chapters (Chapter 300 600 "Ch2") eq_refl
              (or_intror (or_introl eq_refl)) eq_refl)
    as (Hlt & Hle & _).
  split; [exact Hlt | exact Hle].
Defined.

(** ** PlayerChannel *)

(** X7.  'n' and 'm' always send a seek, also when there is nothing to seek
    to: with no chapter starting after the current time (an empty table
    included) 'n' delivers "seek <t> absolute" with the current time itself,
    and with no chapter starting before it 'm' does the same. *)
Theorem seek_without_target (ipc_socket : string) (t : float)
        (chapters : list chapter) (w : world) (received : list text) :
  channels w ipc_socket = Listening received ->
  (Forall (fun c => (t <? start_time c)%float = false) chapters ->
   channels (after (handle_playback_controls ipc_socket (ord "n") t chapters) w)
            ipc_socket
   = Listening (received ++ [line [Lit "seek "; FloatRepr t; Lit " absolute"]]))
  /\ (Forall (fun c => (start_time c <? t)%float = false) chapters ->
      channels (after (handle_playback_controls ipc_socket (ord "m") t chapters) w)
               ipc_socket
      = Listening (received ++ [line [Lit "seek "; FloatRepr t; Lit " absolute"]])).
Proof.
  intros H. unfold after. split; intros Hnone.
  - rewrite handle_n, get_next_chapter_time_find,
      (find_none_of_Forall _ _ Hnone).
    rewrite (send_ipc_command_listening _ _ _ received) by exact H.
    cbn [snd]. apply channels_set_channel.
  - rewrite handle_m. unfold get_previous_chapter_time.
    rewrite scan_previous_find, (find_none_of_Forall _ (rev chapters)).
    + rewrite (send_ipc_command_listening _ _ _ received) by exact H.
      cbn [snd]. apply channels_set_channel.
    + apply Forall_rev. exact Hnone.
Qed.

Lemma seek_without_target_witness :
  channels (after (handle_playback_controls "/tmp/mpv-socket" (ord "n") 400
                                            two_chapters) quiet_world)
           "/tmp/mpv-socket"
  = Listening [line [Lit "seek "; FloatRepr 400; Lit " absolute"]].
Proof.
  destruct (seek_without_target "/tmp/mpv-socket" 400 two_chapters quiet_world []
                                eq_refl) as (Hn & _).
  apply Hn. repeat constructor.
Defined.

(** X8.  A failed send does not cut a key's commands short: when the IPC
    path raises [e], handling 's' still attempts "stop" and then
    "no-screenshot", logs the error of each, returns, and leaves every IPC
    path as it was. *)
Theorem stop_attempts_both_sends (ipc_socket : string) (t : float)
        (chapters : list chapter) (w : world) (e : exn) :
  channels w ipc_socket = Failing e ->
  let w' := after (handle_playback_controls ipc_socket (ord "s") t chapters) w in
  returns (handle_playback_controls ipc_socket (ord "s") t chapters) w tt
  /\ debug_log w'
     = debug_log w
       ++ [(DEBUG, [Lit "Handling key press: "; CharOf (ord "s")]);
           (DEBUG, [Lit "Sending command to mpv: "; Lit "stop"]);
           (ERROR, [Lit "Error sending command to mpv: "; ExnRepr e]);
           (DEBUG, [Lit "Sending command to mpv: "; Lit "no-screenshot"]);
           (ERROR, [Lit "Error sending command to mpv: "; ExnRepr e])]
  /\ (forall path, channels w' path = channels w path).
Proof.
  intros H w'. subst w'. unfold returns, after. rewrite handle_s.
  unfold bind.
  rewrite (send_ipc_command_failing _ _ (pressed "s" w) e) by exact H.
  rewrite (send_ipc_command_failing _ _ _ e) by exact H.
  cbn. rewrite <- !app_assoc. repeat split.
Qed.

Lemma stop_attempts_both_sends_witness :
  returns (handle_playback_controls "/tmp/mpv-socket" (ord "s") 50 two_chapters)
          deaf_world tt
  /\ List.length
       (debug_log (after (handle_playback_controls "/tmp/mpv-socket" (ord "s") 50
                                                   two_chapters) deaf_world))
     = 5%nat.
Proof.
  destruct (stop_attempts_both_sends "/tmp/mpv-socket" 50 two_chapters deaf_world
                                     BrokenPipeError eq_refl)
    as (Hret & Hlog & _).
  split; [exact Hret |]. rewrite Hlog. reflexivity.
Defined.

(** ** PlaybackSession *)



(** X10.  The periodic checkpoint: an iteration that completes on a
    multiple of five seconds leaves the elapsed time of that iteration in
    the position file, where [load_playback_position] finds it; an
    iteration off the mark leaves the position file exactly as it was.  The
    position file is writable and the key is a code point. *)
Theorem periodic_save_is_loadable
        (title author : string) (chapters : list chapter) (chapter_time : float)
        (playback_position : pyval) (ipc_socket : string) (start_time : float)
        (ev : event) (w : world) (current_time : float) (seconds : Z) :
  float_add (ev_now ev - start_time)%float playback_position = Return current_time ->
  valid_code (ev_key ev) = true ->
  int_of_float current_time = Return seconds ->
  pkl_write_fault w = None ->
  let body := tick title author chapters chapter_time playback_position
                   ipc_socket start_time in
  returns (body ev) w tt
  /\ ((seconds mod 5 = 0)%Z ->
      pkl_contents (after (body ev) w) = Some (Pickled (PyFloat current_time))
      /\ (pkl_read_fault w = None ->
          returns load_playback_position (after (body ev) w)
                  (PyFloat current_time)))
  /\ ((seconds mod 5 <> 0)%Z ->
      pkl_contents (after (body ev) w) = pkl_contents w).
Proof.
  intros Hadd Hkey Hint Hw body. subst body. unfold returns, after.
  destruct (tick_run title author chapters chapter_time playback_position
                     ipc_socket start_time ev w current_time Hadd)
    as (w3 & _ & _ & Hc & Hr & _ & _ & Htick).
  rewrite Htick, Hkey, Hint, Hw.
  destruct (seconds mod 5 =? 0)%Z eqn:Hmod; cbn [fst snd].
  - split; [reflexivity | split].
    + intros _. split; [reflexivity |].
      intros Hread. rewrite load_playback_position_run. cbn.
      rewrite Hr, Hread. reflexivity.
    + intros Hne. apply Z.eqb_eq in Hmod. contradiction.
  - split; [reflexivity | split].
    + intros Heq. apply Z.eqb_neq in Hmod. contradiction.
    + intros _. exact Hc.
Qed.

Lemma periodic_save_is_loadable_witness :
  returns load_playback_position
          (after (tick "T" "A" two_chapters 600 (PyInt 0) "/tmp/mpv-socket" 1000
                       (Event 1005.5 (ord "x")))
                 quiet_world)
          (PyFloat 5.5)
  /\ pkl_contents
       (after (tick "T" "A" two_chapters 600 (PyInt 0) "/tmp/mpv-socket" 1000
                    (Event 1001.5 (ord "x")))
              quiet_world)
     = None.
Proof.
  split.
  - destruct (periodic_save_is_loadable
                "T" "A" two_chapters 600 (PyInt 0) "/tmp/mpv-socket" 1000
                (Event 1005.5 (ord "x")) quiet_world 5.5%float 5%Z
                eq_refl eq_refl eq_refl eq_refl)
      as (_ & Hon & _).
    destruct (Hon eq_refl) as (_ & Hload). exact (Hload eq_refl).
  - destruct (periodic_save_is_loadable
                "T" "A" two_chapters 600 (PyInt 0) "/tmp/mpv-socket" 1000
                (Event 1001.5 (ord "x")) quiet_world 1.5%float 1%Z
                eq_refl eq_refl eq_refl eq_refl)
      as (_ & _ & Hoff).
    apply Hoff. discriminate.
Defined.

(** X11.  Two ways an iteration leaves the loop without the checkpoint: a
    key code outside [range(0x110000)], such as the -1 of a [getch] that
    found no key, raises [ValueError] from [chr] in the log message of
    [handle_playback_controls]; and an elapsed time that [int] rejects (NaN
    or an infinity) raises at the five-second test.  In both the frame was
    shown, the position file is as before, and no later iteration runs. *)
Theorem tick_ends_the_loop_without_saving
        (title author : string) (chapters : list chapter) (chapter_time : float)
        (playback_position : pyval) (ipc_socket : string) (start_time : float)
        (ev : event) (rest : list event) (w : world) (current_time : float) :
  float_add (ev_now ev - start_time)%float playback_position = Return current_time ->
  let body := tick title author chapters chapter_time playback_position
                   ipc_socket start_time in
  (valid_code (ev_key ev) = false ->
   raises (while_true body (ev :: rest)) w ValueError
   /\ pkl_contents (after (while_true body (ev :: rest)) w) = pkl_contents w
   /\ List.length (frames (after (while_true body (ev :: rest)) w))
      = S (List.length (frames w)))
  /\ (forall e,
        valid_code (ev_key ev) = true ->
        int_of_float current_time = Raise e ->
        raises (while_true body (ev :: rest)) w e
        /\ pkl_contents (after (while_true body (ev :: rest)) w) = pkl_contents w
        /\ List.length (frames (after (while_true body (ev :: rest)) w))
           = S (List.length (frames w))).
Proof.
  intros Hadd body. subst body. unfold raises, after. cbn [while_true].
  destruct (tick_run title author chapters chapter_time playback_position
                     ipc_socket start_time ev w current_time Hadd)
    as (w3 & Hframes & _ & Hc & _ & _ & _ & Htick).
  assert (Hlen : List.length (frames w3) = S (List.length (frames w))).
  { rewrite Hframes, length_app. cbn. lia. }
  split.
  - intros Hkey. rewrite Hkey in Htick. unfold bind. rewrite Htick.
    cbn [fst snd]. auto.
  - intros e Hkey Hint. rewrite Hkey, Hint in Htick. unfold bind. rewrite Htick.
    cbn [fst snd]. auto.
Qed.

Lemma tick_ends_the_loop_without_saving_witness :
  raises (demo_loop [Event 1000.5 (-1); Event 1001.5 (ord "x")]) quiet_world
         ValueError
  /\ pkl_contents (after (demo_loop [Event 1000.5 (-1); Event 1001.5 (ord "x")])
                         quiet_world)
     = None.
Proof.
  destruct (tick_ends_the_loop_without_saving
              "T" "A" two_chapters 600 (PyInt 0) "/tmp/mpv-socket" 1000
              (Event 1000.5 (-1)) [Event 1001.5 (ord "x")] quiet_world
              0.5%float eq_refl)
    as (H & _).
  destruct (H eq_refl) as (Hraise & Hc & _).
  split; [exact Hraise | exact Hc].
Defined.

(** X12.  Resuming: after an iteration that saved at elapsed time
    [current_time], a later [play_audiobook], whatever its book and its
    start, runs its loop with that elapsed time as resume offset, so that an
    iteration [d] seconds after its start computes [d + current_time]. *)
Theorem resume_from_last_checkpoint
        (title author : string) (chapters : list chapter) (chapter_time : float)
        (playback_position : pyval) (ipc_socket : string) (start_time : float)
        (ev : event) (w : world) (current_time : float) (seconds : Z) :
  float_add (ev_now ev - start_time)%float playback_position = Return current_time ->
  valid_code (ev_key ev) = true ->
  int_of_float current_time = Return seconds ->
  (seconds mod 5 = 0)%Z ->
  pkl_write_fault w = None ->
  pkl_read_fault w = None ->
  let w' := after (tick title author chapters chapter_time playback_position
                        ipc_socket start_time ev) w in
  forall title' author' chapters' total_duration' start_time' events',
    play_audiobook title' author' chapters' total_duration' start_time' events' w'
    = while_true (tick title' author' chapters' total_duration'
                       (PyFloat current_time) "/tmp/mpv-socket" start_time')
                 events' w'
    /\ forall now,
         float_add (now - start_time')%float (PyFloat current_time)
         = Return (now - start_time' + current_time)%float.
Proof.
  intros Hadd Hkey Hint Hmod Hw Hr w' title' author' chapters' total' start'
         events'.
  split; [| reflexivity].
  assert (Hload : load_playback_position w' = (Return (PyFloat current_time), w')).
  { subst w'. unfold after. rewrite load_playback_position_run.
    destruct (tick_run title author chapters chapter_time playback_position
                       ipc_socket start_time ev w current_time Hadd)
      as (w3 & _ & _ & _ & Hr3 & _ & _ & Htick).
    apply Z.eqb_eq in Hmod. rewrite Htick, Hkey, Hint, Hmod, Hw. cbn.
    rewrite Hr3, Hr. reflexivity. }
  unfold play_audiobook, bind at 1. rewrite Hload. reflexivity.
Qed.

Lemma resume_from_last_checkpoint_witness :
  let w' := after (tick "T" "A" two_chapters 600 (PyInt 0) "/tmp/mpv-socket" 1000
                        (Event 1005.5 (ord "x")))
                  quiet_world in
  play_audiobook "T" "A" two_chapters 600 2000 two_ticks w'
  = while_true (tick "T" "A" two_chapters 600 (PyFloat 5.5) "/tmp/mpv-socket" 2000)
               two_ticks w'.
Proof.
  cbv zeta.
  destruct (resume_from_last_checkpoint
              "T" "A" two_chapters 600 (PyInt 0) "/tmp/mpv-socket" 1000
              (Event 1005.5 (ord "x")) quiet_world 5.5%float 5%Z
              eq_refl eq_refl eq_refl eq_refl eq_refl eq_refl
              "T"%string "A"%string two_chapters 600%float 2000%float two_ticks)
    as (H & _).
  exact H.
Defined.

(** X13.  The position store keeps one value: of two saves the second is
    the one loaded; and a save for which [open] raises changes nothing, so
    that a later load answers as it would have before. *)
Theorem position_store_keeps_last_write (p q : pyval) (w : world) :
  (pkl_write_fault w = None -> pkl_read_fault w = None ->
   returns (save_playback_position p ;; save_playback_position q ;;
            load_playback_position) w q)
  /\ (forall e,
        pkl_write_fault w = Some e ->
        raises (save_playback_position p) w e
        /\ after (save_playback_position p) w = w
        /\ load_playback_position (after (save_playback_position p) w)
           = load_playback_position w).
Proof.
  split.
  - intros Hw Hr. unfold returns, bind.
    rewrite save_playback_position_run, Hw.
    rewrite save_playback_position_run. cbn. rewrite Hw.
    rewrite load_playback_position_run. cbn. rewrite Hr. reflexivity.
  - intros e He. unfold raises, after. rewrite save_playback_position_run, He.
    repeat split.
Qed.

Lemma position_store_keeps_last_write_witness :
  returns (save_playback_position (PyFloat 5.5) ;;
           save_playback_position (PyFloat 10.5) ;;
           load_playback_position) quiet_world (PyFloat 10.5)
  /\ load_playback_position
       (after (save_playback_position (PyFloat 5.5)) readonly_world)
     = load_playback_position readonly_world.
Proof.
  split.
  - destruct (position_store_keeps_last_write (PyFloat 5.5) (PyFloat 10.5)
                                              quiet_world) as (H & _).
    exact (H eq_refl eq_refl).
  - destruct (position_store_keeps_last_write (PyFloat 5.5) (PyFloat 10.5)
                                              readonly_world) as (_ & H).
    destruct (H PermissionError eq_refl) as (_ & _ & Hload). exact Hload.
Defined.

(** X14.  The loop shows one frame per iteration and never touches the
    frames already shown: after any number of iterations the frames are
    those before followed by at most one per event, and by exactly one per
    event when no iteration raised. *)
Theorem loop_shows_one_frame_per_iteration
        (title author : string) (chapters : list chapter) (chapter_time : float)
        (playback_position : pyval) (ipc_socket : string) (start_time : float)
        (events : list event) (w : world) :
  let loop := while_true (tick title author chapters chapter_time
                               playback_position ipc_socket start_time) events in
  exists shown,
    frames (after loop w) = frames w ++ shown
    /\ (List.length shown <= List.length events)%nat
    /\ (returns loop w tt -> List.length shown = List.length events).
Proof.
  cbv zeta. unfold after, returns. revert w.
  induction events as [| ev rest IH]; intros w.
  - exists []. cbn. rewrite app_nil_r. auto.
  - cbn [while_true].
    set (body := tick title author chapters chapter_time playback_position
                      ipc_socket start_time) in *.
    assert (Hstop : forall e w3 f,
               body ev w = (Raise e, w3) -> frames w3 = frames w ++ f ->
               (List.length f <= 1)%nat ->
               exists shown,
                 frames (snd ((body ev ;; while_true body rest) w))
                 = frames w ++ shown
                 /\ (List.length shown <= List.length (ev :: rest))%nat
                 /\ (fst ((body ev ;; while_true body rest) w) = Return tt ->
                     List.length shown = List.length (ev :: rest))).
    { intros e w3 f Hb Hf Hlen. exists f. unfold bind. rewrite Hb. cbn.
      split; [exact Hf | split; [lia | discriminate]]. }
    assert (Hgo : forall w4 f,
               body ev w = (Return tt, w4) -> frames w4 = frames w ++ [f] ->
               exists shown,
                 frames (snd ((body ev ;; while_true body rest) w))
                 = frames w ++ shown
                 /\ (List.length shown <= List.length (ev :: rest))%nat
                 /\ (fst ((body ev ;; while_true body rest) w) = Return tt ->
                     List.length shown = List.length (ev :: rest))).
    { intros w4 f Hb Hf. destruct (IH w4) as (shown & Hs & Hle & Heq).
      exists (f :: shown). unfold bind. rewrite Hb, Hs, Hf, <- app_assoc. cbn.
      split; [reflexivity | split; [lia |]].
      intros Hret. rewrite (Heq Hret). reflexivity. }
    destruct (float_add (ev_now ev - start_time)%float playback_position)
      as [current_time | e] eqn:Hadd.
    + destruct (tick_run title author chapters chapter_time playback_position
                         ipc_socket start_time ev w current_time Hadd)
        as (w3 & Hframes & _ & _ & _ & _ & _ & Htick).
      fold body in Htick.
      destruct (valid_code (ev_key ev));
        [| exact (Hstop _ _ _ Htick Hframes (le_n 1))].
      destruct (int_of_float current_time) as [seconds | e];
        [| exact (Hstop _ _ _ Htick Hframes (le_n 1))].
      destruct (seconds mod 5 =? 0)%Z; [| exact (Hgo _ _ Htick Hframes)].
      destruct (pkl_write_fault w);
        [exact (Hstop _ _ _ Htick Hframes (le_n 1))
        | exact (Hgo _ _ Htick Hframes)].
    + apply (Hstop e w []).
      * apply tick_no_elapsed_time. exact Hadd.
      * rewrite app_nil_r. reflexivity.
      * cbn. lia.
Qed.

Lemma loop_shows_one_frame_per_iteration_witness :
  exists shown,
    frames (after (demo_loop pause_then_idle) deaf_world)
    = frames deaf_world ++ shown
    /\ List.length shown = List.length pause_then_idle.
Proof.
  destruct (loop_shows_one_frame_per_iteration
              "T" "A" two_chapters 600 (PyInt 0) "/tmp/mpv-socket" 1000
              pause_then_idle deaf_world)
    as (shown & Hs & _ & Heq).
  exists shown. split; [exact Hs | exact (Heq eq_refl)].
Defined.

(** X15.  The loop sends only on mapped keys: over any run of iterations in
    which no key of the keymap is pressed, whatever else happens (a
    checkpoint, a failed save, an invalid key that ends the loop), what is
    behind every IPC path stays as it was. *)
Theorem idle_loop_sends_nothing
        (title author : string) (chapters : list chapter) (chapter_time : float)
        (playback_position : pyval) (ipc_socket : string) (start_time : float)
        (events : list event) (w : world) :
  Forall (fun ev => ~ In (ev_key ev) mapped_keys) events ->
  forall path,
    channels (after (while_true (tick title author chapters chapter_time
                                      playback_position ipc_socket start_time)
                                events) w) path
    = channels w path.
Proof.
  unfold after. intros Hidle. revert w.
  induction Hidle as [| ev rest Hev _ IH]; intros w path; [reflexivity |].
  cbn [while_true].
  set (body := tick title author chapters chapter_time playback_position
                    ipc_socket start_time) in *.
  destruct (float_add (ev_now ev - start_time)%float playback_position)
    as [current_time | e] eqn:Hadd.
  - destruct (tick_run title author chapters chapter_time playback_position
                       ipc_socket start_time ev w current_time Hadd)
      as (w3 & _ & _ & _ & _ & _ & Hch & Htick).
    fold body in Htick. specialize (Hch Hev).
    unfold bind. rewrite Htick.
    destruct (valid_code (ev_key ev)); [| apply Hch].
    destruct (int_of_float current_time) as [seconds | e]; [| apply Hch].
    destruct (seconds mod 5 =? 0)%Z; [| rewrite IH; apply Hch].
    destruct (pkl_write_fault w); [apply Hch |].
    rewrite IH. apply Hch.
  - unfold bind. subst body. rewrite (tick_no_elapsed_time _ _ _ _ _ _ _ _ _ _ Hadd).
    reflexivity.
Qed.

Lemma idle_loop_sends_nothing_witness :
  channels (after (demo_loop two_ticks) quiet_world) "/tmp/mpv-socket"
  = Listening [].
Proof.
  assert (Hx : ~ In (ord "x") mapped_keys).
  { cbn. intros [H | [H | [H | [H | [H | [H | []]]]]]]; discriminate H. }
  assert (Hidle : Forall (fun ev => ~ In (ev_key ev) mapped_keys) two_ticks).
  { constructor; [exact Hx | constructor; [exact Hx | constructor]]. }
  exact (idle_loop_sends_nothing
           "T" "A" two_chapters 600 (PyInt 0) "/tmp/mpv-socket" 1000 two_ticks
           quiet_world Hidle "/tmp/mpv-socket"%string).
Defined.

(** Two iterations at the same clock reading, each with a key that is a
    code point, from worlds with the same position file and screen: they
    end alike and leave the same position file and screen. *)
Lemma tick_whatever_the_key title author chapters chapter_time playback_position
      ipc_socket start_time ev1 ev2 w1 w2 :
  ev_now ev1 = ev_now ev2 ->
  valid_code (ev_key ev1) = true ->
  valid_code (ev_key ev2) = true ->
  same_session w1 w2 ->
  let body := tick title author chapters chapter_time playback_position
                   ipc_socket start_time in
  fst (body ev1 w1) = fst (body ev2 w2)
  /\ same_session (snd (body ev1 w1)) (snd (body ev2 w2)).
Proof.
  intros Hnow Hk1 Hk2 (S1 & S2 & S3 & S4 & S5) body. subst body.
  destruct (float_add (ev_now ev1 - start_time)%float playback_position)
    as [current_time | e] eqn:Hadd.
  - destruct (tick_run title author chapters chapter_time playback_position
                       ipc_socket start_time ev1 w1 current_time Hadd)
      as (a & Fa & Wa & Ca & Ra & Wfa & _ & Ta).
    rewrite Hnow in Hadd.
    destruct (tick_run title author chapters chapter_time playback_position
                       ipc_socket start_time ev2 w2 current_time Hadd)
      as (b & Fb & Wb & Cb & Rb & Wfb & _ & Tb).
    rewrite Ta, Tb, Hk1, Hk2, S3.
    assert (Hab : same_session a b).
    { repeat split; congruence. }
    assert (Hsaved : forall v,
               same_session (set_pkl_contents v a) (set_pkl_contents v b)).
    { intros v. destruct Hab as (_ & X2 & X3 & X4 & X5). repeat split; assumption. }
    destruct (int_of_float current_time) as [seconds | e];
      [| split; [reflexivity | exact Hab]].
    destruct (seconds mod 5 =? 0)%Z; [| split; [reflexivity | exact Hab]].
    destruct (pkl_write_fault w2); split; try reflexivity;
      [exact Hab | apply Hsaved].
  - rewrite (tick_no_elapsed_time _ _ _ _ _ _ _ _ _ _ Hadd).
    rewrite Hnow in Hadd.
    rewrite (tick_no_elapsed_time _ _ _ _ _ _ _ _ _ _ Hadd).
    repeat split; assumption.
Qed.

(** X16.  The keys do not move the session's clock: two runs of the loop
    at the same clock readings that differ in the keys pressed (say one
    seeks with 'n' and the other presses nothing mapped), all of them code
    points, end alike, show the same frames, with the same elapsed times
    and chapter titles, and leave the same position file. *)
Theorem keys_do_not_move_the_clock
        (title author : string) (chapters : list chapter) (chapter_time : float)
        (playback_position : pyval) (ipc_socket : string) (start_time : float)
        (events1 events2 : list event) (w1 w2 : world) :
  map ev_now events1 = map ev_now events2 ->
  Forall (fun ev => valid_code (ev_key ev) = true) events1 ->
  Forall (fun ev => valid_code (ev_key ev) = true) events2 ->
  same_session w1 w2 ->
  let loop := while_true (tick title author chapters chapter_time
                               playback_position ipc_socket start_time) in
  fst (loop events1 w1) = fst (loop events2 w2)
  /\ same_session (after (loop events1) w1) (after (loop events2) w2).
Proof.
  intros Hnow H1. revert events2 w1 w2 Hnow.
  induction H1 as [| ev1 rest1 Hk1 _ IH]; intros [| ev2 rest2] w1 w2 Hnow H2 Hs loop;
    try discriminate Hnow.
  - split; [reflexivity | exact Hs].
  - subst loop. unfold after. cbn [while_true].
    cbn [map] in Hnow. injection Hnow as Hnow Hrest.
    inversion H2 as [| ? ? Hk2 H2']; subst.
    destruct (tick_whatever_the_key title author chapters chapter_time
                playback_position ipc_socket start_time ev1 ev2 w1 w2
                Hnow Hk1 Hk2 Hs) as [Hf Hs'].
    unfold bind.
    destruct (tick _ _ _ _ _ _ _ ev1 w1) as [o1 a].
    destruct (tick _ _ _ _ _ _ _ ev2 w2) as [o2 b].
    cbn [fst snd] in Hf, Hs'. subst o2.
    destruct o1 as [[] | e]; [| split; [reflexivity | exact Hs']].
    exact (IH rest2 a b Hrest H2' Hs').
Qed.

Lemma keys_do_not_move_the_clock_witness :
  frames (after (demo_loop [Event 1001.5 (ord "n"); Event 1002.5 (ord "x")])
                quiet_world)
  = frames (after (demo_loop [Event 1001.5 (ord "x"); Event 1002.5 (ord "x")])
                  quiet_world).
Proof.
  assert (H1 : Forall (fun ev => valid_code (ev_key ev) = true)
                      [Event 1001.5 (ord "n"); Event 1002.5 (ord "x")])
    by (repeat constructor).
  assert (H2 : Forall (fun ev => valid_code (ev_key ev) = true)
                      [Event 1001.5 (ord "x"); Event 1002.5 (ord "x")])
    by (repeat constructor).
  destruct (keys_do_not_move_the_clock
              "T" "A" two_chapters 600 (PyInt 0) "/tmp/mpv-socket" 1000
              [Event 1001.5 (ord "n"); Event 1002.5 (ord "x")]
              [Event 1001.5 (ord "x"); Event 1002.5 (ord "x")]
              quiet_world quiet_world eq_refl H1 H2
              (same_session_refl quiet_world))
    as (_ & (_ & _ & _ & _ & Hframes)).
  exact Hframes.
Defined.
